(** * The selectable list widget of qontract-development-cli

    A shallow embedding of [ItemControl] and its two subclasses from
    [qontract_development_cli/tui/widgets.py]: the item list, the selected
    index, the selection setter, the bulk append and the two key handlers
    that move the cursor and ask the parent viewport to scroll.

    Python integers are [Z]; a Python exception is an outcome of the
    computation that keeps the mutations and messages made before it. *)

From Stdlib Require Import ZArith List String Bool Lia.
From Stdlib Require Import Orders Mergesort Sorted Permutation.
Import ListNotations.
Local Open Scope Z_scope.

(** ** Data *)

(** The three classes that share the code of [ItemControl]. Each one carries
    a nested message class [ItemSelected] of its own, and [self.ItemSelected]
    is looked up on the class of the instance. *)
Inductive widget_class : Type :=
| BaseItemControl
| EnvList
| ProfileList.

(** [ItemSelected(sender, item)]: [owner] is the class whose nested message
    class was instantiated. *)
Inductive Message : Type :=
| ItemSelected (owner : widget_class) (item : string).

(** The exceptions the widget code can raise. *)
Inductive exn : Type :=
| AttributeError
| TypeError
| ZeroDivisionError
| IndexError.

(** What a handler does to the outside world, in program order. *)
Inductive effect : Type :=
| EventStop                      (* event.stop() *)
| Emit (m : Message)             (* self.emit_no_wait(m) *)
| Refresh (layout : bool)        (* self.refresh(layout=...) *)
| Log (v : Z)                    (* log(v) *)
| LogScrollOffset                (* log(self.parent.scroll_offset.y), read
                                    back from the parent after the request *)
| ScrollDown (animate : bool)    (* self.parent.scroll_down(animate=...) *)
| ScrollUp (animate : bool).     (* self.parent.scroll_up(animate=...) *)

(** The instance. [__init__] creates [_items] only; [_selected_index] is an
    attribute that exists once the setter has run: the outer [option] is the
    presence of the attribute, the inner one is Python's [int | None]. *)
Record ItemControl : Type := mkItemControl {
  cls : widget_class;
  _items : list string;
  _selected_index : option (option Z)
}.

(** The enclosing scrollable container, as the handlers read it. *)
Record Viewport : Type := mkViewport {
  content_size_height : Z;       (* self.parent.content_size.height *)
  scroll_offset_y : Z            (* self.parent.scroll_offset.y *)
}.

(** What a key handler finds around the widget when it runs. *)
Record Env : Type := mkEnv {
  parent : option Viewport;      (* self.parent, None when detached *)
  container_size_height : Z      (* self.container_size.height *)
}.

(** ** Computations that mutate the widget, emit effects and may raise *)

Inductive outcome (A : Type) : Type :=
| Return (a : A)
| Raise (e : exn).
Arguments Return {A} a.
Arguments Raise {A} e.

Record Run (A : Type) : Type := mkRun {
  final : ItemControl;
  trace : list effect;
  result : outcome A
}.
Arguments mkRun {A} final trace result.
Arguments final {A} r.
Arguments trace {A} r.
Arguments result {A} r.

Definition M (A : Type) : Type := ItemControl -> Run A.

Definition ret {A : Type} (a : A) : M A :=
  fun self => mkRun self [] (Return a).

Definition raise {A : Type} (e : exn) : M A :=
  fun self => mkRun self [] (Raise e).

Definition bind {A B : Type} (m : M A) (f : A -> M B) : M B :=
  fun self =>
    match m self with
    | mkRun s t (Raise e) => mkRun s t (Raise e)
    | mkRun s t (Return a) =>
        match f a s with
        | mkRun s' t' o => mkRun s' (t ++ t') o
        end
    end.

Notation "x <- m ;; k" := (bind m (fun x => k))
  (at level 61, m at next level, right associativity).
Notation "m ;; k" := (bind m (fun _ => k))
  (at level 61, right associativity).

Definition perform (e : effect) : M unit :=
  fun self => mkRun self [e] (Return tt).

Definition read {A : Type} (f : ItemControl -> A) : M A :=
  fun self => mkRun self [] (Return (f self)).

Definition update (f : ItemControl -> ItemControl) : M unit :=
  fun self => mkRun (f self) [] (Return tt).

(** ** Python primitives *)

Definition len (l : list string) : Z := Z.of_nat (List.length l).

(** [not l] for a list. *)
Definition is_empty (l : list string) : bool :=
  match l with
  | [] => true
  | _ :: _ => false
  end.

(** [l[i]]: a negative index counts from the end, an index out of range
    raises. *)
Definition getitem (l : list string) (i : Z) : M string :=
  let j := if i <? 0 then len l + i else i in
  if j <? 0 then raise IndexError
  else match nth_error l (Z.to_nat j) with
       | Some x => ret x
       | None => raise IndexError
       end.

(** [a + b], [a - b] where [a] is an [int | None]. *)
Definition py_add (a : option Z) (b : Z) : M Z :=
  match a with
  | Some x => ret (x + b)
  | None => raise TypeError
  end.

Definition py_sub (a : option Z) (b : Z) : M Z :=
  match a with
  | Some x => ret (x - b)
  | None => raise TypeError
  end.

(** [a % b] on integers: the sign of the result follows the divisor, as
    [Z.modulo] does. *)
Definition py_mod (a b : Z) : M Z :=
  if b =? 0 then raise ZeroDivisionError else ret (a mod b).

(** [textual.geometry.clamp], the framework function the widget imports:
    the bounds are put in order, then the value is returned unless it lies
    below the lower bound or above the upper one, in which case that bound
    is. *)
Definition clamp (value minimum maximum : Z) : Z :=
  let lo := if maximum <? minimum then maximum else minimum in
  let hi := if maximum <? minimum then minimum else maximum in
  if value <? lo then lo
  else if hi <? value then hi
  else value.

(** ** The widget *)

Definition __init__ (c : widget_class) : ItemControl :=
  {| cls := c; _items := []; _selected_index := None |}.

(** The property getter: [return self._selected_index]. *)
Definition selected_index : M (option Z) :=
  a <- read _selected_index ;;
  match a with
  | Some v => ret v
  | None => raise AttributeError
  end.

Definition _clamp_index (new_index : Z) : M (option Z) :=
  items <- read _items ;;
  if is_empty items then ret None
  else ret (Some (clamp new_index 0 (len items - 1))).

Definition set_field (v : option Z) (self : ItemControl) : ItemControl :=
  {| cls := cls self; _items := _items self; _selected_index := Some v |}.

(** The property setter. *)
Definition selected_index_setter (new_value : option Z) : M unit :=
  match new_value with
  | Some v =>
      c <- _clamp_index v ;;
      update (set_field c) ;;
      match c with
      | Some i =>
          items <- read _items ;;
          selected_item <- getitem items i ;;
          owner <- read cls ;;
          perform (Emit (ItemSelected owner selected_item))
      | None => ret tt
      end
  | None => ret tt
  end ;;
  perform (Refresh true).

Definition _on_mount : M unit :=
  selected_index_setter (Some 0).

Definition extend (items : list string) (self : ItemControl) : ItemControl :=
  {| cls := cls self;
     _items := _items self ++ items;
     _selected_index := _selected_index self |}.

Definition add_items (items : list string) : M unit :=
  update (extend items) ;;
  s <- selected_index ;;
  match s with
  | None => selected_index_setter (Some 0)
  | Some _ => ret tt
  end.

(** [self.parent.scroll_offset.y]: the attribute access fails on [None]. *)
Definition parent_scroll_offset_y (env : Env) : M Z :=
  match parent env with
  | Some p => ret (scroll_offset_y p)
  | None => raise AttributeError
  end.

(** [self.parent.content_size if self.parent else self.container_size],
    then [.height]. *)
Definition content_height (env : Env) : Z :=
  match parent env with
  | Some p => content_size_height p
  | None => container_size_height env
  end.

(** The truth value of [self.parent]. *)
Definition has_parent (env : Env) : bool :=
  match parent env with
  | Some _ => true
  | None => false
  end.

Definition key_down (env : Env) : M unit :=
  perform EventStop ;;
  (* self.selected_index += 1 *)
  s <- selected_index ;;
  v <- py_add s 1 ;;
  selected_index_setter (Some v) ;;
  let height := content_height env in
  (* log((self.selected_index - self.parent.scroll_offset.y) % height) *)
  a <- selected_index ;;
  o <- parent_scroll_offset_y env ;;
  d <- py_sub a o ;;
  r <- py_mod d height ;;
  perform (Log r) ;;
  (* if (...) % height == 0 and self.parent: *)
  a' <- selected_index ;;
  o' <- parent_scroll_offset_y env ;;
  d' <- py_sub a' o' ;;
  r' <- py_mod d' height ;;
  (if (r' =? 0) && has_parent env
   then perform (ScrollDown false)
   else ret tt) ;;
  (* log(self.parent.scroll_offset.y) *)
  _ <- parent_scroll_offset_y env ;;
  perform LogScrollOffset.

Definition key_up (env : Env) : M unit :=
  perform EventStop ;;
  (* self.selected_index -= 1 *)
  s <- selected_index ;;
  v <- py_sub s 1 ;;
  selected_index_setter (Some v) ;;
  let height := content_height env in
  (* log((self.selected_index + 1 - self.parent.scroll_offset.y) % height) *)
  a <- selected_index ;;
  b <- py_add a 1 ;;
  o <- parent_scroll_offset_y env ;;
  r <- py_mod (b - o) height ;;
  perform (Log r) ;;
  (* if (...) % height == 0 and self.parent: *)
  a' <- selected_index ;;
  b' <- py_add a' 1 ;;
  o' <- parent_scroll_offset_y env ;;
  r' <- py_mod (b' - o') height ;;
  if (r' =? 0) && has_parent env
  then perform (ScrollUp false)
  else ret tt.

(** ** Rendering *)

(** What [render] hands to the console: the item list and the selection.
    The two styles come from the style sheet and are left out. *)
Record ItemListRenderable : Type := mkItemListRenderable {
  items : list string;
  renderable_selected_index : option Z
}.

Definition render : M ItemListRenderable :=
  l <- read _items ;;
  s <- selected_index ;;
  ret (mkItemListRenderable l s).

(** [i == self.selected_index] for a row number and an [int | None]. *)
Definition is_selected (i : Z) (s : option Z) : bool :=
  match s with
  | Some j => i =? j
  | None => false
  end.

(** The rows of the grid built by [__rich_console__]: one per item, in
    order, with the cursor style on the selected row. *)
Fixpoint rows_from (i : Z) (l : list string) (s : option Z)
  : list (string * bool) :=
  match l with
  | [] => []
  | item :: rest => (item, is_selected i s) :: rows_from (i + 1) rest s
  end.

Definition __rich_console__ (r : ItemListRenderable) : list (string * bool) :=
  rows_from 0 (items r) (renderable_selected_index r).

(** A render pass: [render], then the rows of what it returned. *)
Definition render_rows : M (list (string * bool)) :=
  r <- render ;;
  ret (__rich_console__ r).

(** [max(len(self._items), container.height)]. *)
Definition get_content_height (container_height : Z) (self : ItemControl) : Z :=
  Z.max (len (_items self)) container_height.

(** ** Events delivered to the widget *)

Inductive op : Type :=
| Mount
| AddItems (new_items : list string)
| SetSelectedIndex (new_value : option Z)
| KeyDown (env : Env)
| KeyUp (env : Env).

Definition exec (o : op) : M unit :=
  match o with
  | Mount => _on_mount
  | AddItems l => add_items l
  | SetSelectedIndex v => selected_index_setter v
  | KeyDown env => key_down env
  | KeyUp env => key_up env
  end.

(** Handlers run one after the other; an exception ends the run. *)
Fixpoint script (ops : list op) : M unit :=
  match ops with
  | [] => ret tt
  | o :: rest => exec o ;; script rest
  end.

(** The same key pressed once per environment. *)
Fixpoint presses (key : Env -> M unit) (envs : list Env) : M unit :=
  match envs with
  | [] => ret tt
  | env :: rest => key env ;; presses key rest
  end.

(** The widget after the same key has been pressed once per environment,
    each press acting on what the one before left behind, whether it
    returned or raised. *)
Definition after_presses (key : Env -> M unit) (envs : list Env)
    (self : ItemControl) : ItemControl :=
  fold_left (fun widget env => final (key env widget)) envs self.

(** The states the widget can be in: a fresh instance, and whatever a
    handler leaves behind, whether it returned or raised. *)
Inductive reachable : ItemControl -> Prop :=
| reachable_init (c : widget_class) : reachable (__init__ c)
| reachable_exec (o : op) (self : ItemControl) :
    reachable self -> reachable (final (exec o self)).

(** ** Observations on a trace *)

Fixpoint notifications (t : list effect) : list Message :=
  match t with
  | [] => []
  | Emit m :: rest => m :: notifications rest
  | _ :: rest => notifications rest
  end.

Definition is_scroll (e : effect) : bool :=
  match e with
  | ScrollDown _ | ScrollUp _ => true
  | _ => false
  end.

Definition scroll_requests (t : list effect) : list effect :=
  filter is_scroll t.

(** ** The state invariant *)

(** The selection is an index of the list when there is one, and [None]
    when the list is empty; the attribute exists. *)
Definition invariant (self : ItemControl) : bool :=
  match _selected_index self with
  | None => false
  | Some None => is_empty (_items self)
  | Some (Some i) =>
      negb (is_empty (_items self)) && (0 <=? i) && (i <=? len (_items self) - 1)
  end.

(** A handler can run to its end: the widget has a parent whose content
    height is not zero. *)
Definition usable (env : Env) : bool :=
  match parent env with
  | Some p => negb (content_size_height p =? 0)
  | None => false
  end.

(** The notification tag of every message replaced by [c]. *)
Definition retag (c : widget_class) (e : effect) : effect :=
  match e with
  | Emit (ItemSelected _ item) => Emit (ItemSelected c item)
  | other => other
  end.

Definition with_cls (c : widget_class) (self : ItemControl) : ItemControl :=
  {| cls := c; _items := _items self; _selected_index := _selected_index self |}.

Definition retag_run {A : Type} (c : widget_class) (r : Run A) : Run A :=
  mkRun (with_cls c (final r)) (map (retag c) (trace r)) (result r).

(** Before the mount handler has run the attribute may be missing; once it
    exists the invariant holds. *)
Definition consistent (self : ItemControl) : bool :=
  match _selected_index self with
  | None => true
  | Some _ => invariant self
  end.

(** The labels of the messages in a trace, without their tags. *)
Fixpoint labels (t : list effect) : list string :=
  match t with
  | [] => []
  | Emit (ItemSelected _ item) :: rest => item :: labels rest
  | _ :: rest => labels rest
  end.

(** ** Predicates on computations *)

(** Computations that leave the widget as they found it. *)
Definition preserves {A : Type} (m : M A) : Prop :=
  forall self, final (m self) = self.

(** A computation does not look at the class of the widget except to tag
    the messages it emits. *)
Definition respects {A : Type} (m : M A) : Prop :=
  forall c self, m (with_cls c self) = retag_run c (m self).

(** ** The application: filling the two lists *)

(** [sorted] on strings: the order is the one of [str], character by
    character. *)
Module StringOrder <: TotalLeBool.
Definition t := string.
Definition leb := String.leb.
Theorem leb_total : forall x y, leb x y = true \/ leb y x = true.
Proof. exact String.leb_total. Qed.
End StringOrder.

Module StringSort := Sort StringOrder.

Definition sorted (l : list string) : list string := StringSort.sort l.

(** [s * n] for a string and [l * n] for a list. *)
Fixpoint string_times (s : string) (n : nat) : string :=
  match n with
  | O => EmptyString
  | S k => String.append s (string_times s k)
  end.

Definition list_times (l : list string) (n : nat) : list string :=
  List.concat (repeat l n).

(** [[e.name for e in listing if e.name != DEFAULT_PROFILE.name]]. *)
Definition not_default (default_name : string) (listing : list string)
  : list string :=
  filter (fun name => negb (String.eqb name default_name)) listing.

(** What [QdApp.on_mount] works on: the lines of the log widget, the two
    lists found by [query_one], and the identifier of the focused widget. *)
Record QdApp : Type := mkQdApp {
  docker_log : list string;
  envs_list : ItemControl;
  profiles_list : ItemControl;
  focused : option string
}.

(** A run of an application handler: the effects are kept per list. *)
Record AppRun : Type := mkAppRun {
  app_final : QdApp;
  envs_trace : list effect;
  profiles_trace : list effect;
  app_result : outcome unit
}.

(** The three loads of the profile list. [Profile.list_all()] is called
    once per load; [first], [second] and [third] are the names it returned
    each time. *)
Definition load_profiles (default_name : string)
    (first second third : list string) : M unit :=
  add_items (list_times (not_default default_name first) 10) ;;
  add_items (map (fun name => String.append name "2")
               (not_default default_name second)) ;;
  add_items (map (fun name => String.append name "3")
               (not_default default_name third)).

(** [QdApp.on_mount]. [env_names] are the names of [Env.list_all()]. An
    exception in a load ends the handler where it is. *)
Definition on_mount (env_names : list string) (default_name : string)
    (first second third : list string) (app : QdApp) : AppRun :=
  let log := docker_log app ++ [string_times "text " 100; "text"; "text"]%string in
  let r := add_items (sorted env_names) (envs_list app) in
  match result r with
  | Raise e =>
      mkAppRun (mkQdApp log (final r) (profiles_list app) (focused app))
               (trace r) [] (Raise e)
  | Return _ =>
      let r' := load_profiles default_name first second third
                  (profiles_list app) in
      mkAppRun (mkQdApp log (final r) (final r') (Some "envs"%string))
               (trace r) (trace r') (result r')
  end.

(** ** The earlier widget, [tui/widgets copy.py] *)

(** The list control of [widgets copy.py]: items are nodes with an
    identifier, the cursor is the identifier of a node and [cursor_line] its
    row, and the cursor wraps around at both ends. The two reactive
    attributes have their defaults from the start; what the framework does
    when one changes (calling [watch_cursor_line], which asks to scroll to
    the row) is left to it. *)
Module WidgetsCopy.

(** [ItemNode]; its [control] is always the widget that owns the list. *)
Record ItemNode : Type := mkItemNode {
  id : Z;
  label : string
}.

Record ItemControl : Type := mkItemControl {
  _item_list : list ItemNode;
  cursor : option Z;
  cursor_line : Z
}.

Inductive effect : Type :=
| EventStop                          (* event.stop() *)
| PostItemSelected (item : ItemNode). (* post_message_no_wait(ItemSelected) *)

Record Run : Type := mkRun {
  final : ItemControl;
  trace : list effect;
  result : outcome unit
}.

Definition __init__ : ItemControl :=
  {| _item_list := []; cursor := None; cursor_line := 0 |}.

(** [l[i]]; [None] stands for [IndexError]. *)
Definition getitem (l : list ItemNode) (i : Z) : option ItemNode :=
  let j := if i <? 0 then Z.of_nat (List.length l) + i else i in
  if j <? 0 then None else nth_error l (Z.to_nat j).

Definition set_cursor (v : option Z) (self : ItemControl) : ItemControl :=
  {| _item_list := _item_list self; cursor := v;
     cursor_line := cursor_line self |}.

Definition set_cursor_line (v : Z) (self : ItemControl) : ItemControl :=
  {| _item_list := _item_list self; cursor := cursor self;
     cursor_line := v |}.

(** [self.cursor = self._item_list[self.cursor_line].id] *)
Definition cursor_to_line (self : ItemControl) : option ItemControl :=
  match getitem (_item_list self) (cursor_line self) with
  | Some node => Some (set_cursor (Some (id node)) self)
  | None => None
  end.

Definition cursor_down (self : ItemControl) : ItemControl * outcome unit :=
  let self1 := set_cursor_line (cursor_line self + 1) self in
  match cursor_to_line self1 with
  | Some self2 => (self2, Return tt)
  | None =>
      (* except IndexError: *)
      let self2 := set_cursor_line 0 self1 in
      match cursor_to_line self2 with
      | Some self3 => (self3, Return tt)
      | None => (self2, Raise IndexError)
      end
  end.

Definition cursor_up (self : ItemControl) : ItemControl * outcome unit :=
  let self1 := set_cursor_line (cursor_line self - 1) self in
  if cursor_line self1 <? 0 then
    let self2 :=
      set_cursor_line (Z.of_nat (List.length (_item_list self1)) - 1) self1 in
    match cursor_to_line self2 with
    | Some self3 => (self3, Return tt)
    | None => (self2, Raise IndexError)
    end
  else
    match cursor_to_line self1 with
    | Some self2 => (self2, Return tt)
    | None => (self1, Raise IndexError)
    end.

Definition key_down (self : ItemControl) : Run :=
  let '(s, o) := cursor_down self in mkRun s [EventStop] o.

Definition key_up (self : ItemControl) : Run :=
  let '(s, o) := cursor_up self in mkRun s [EventStop] o.

Definition key_enter (self : ItemControl) : Run :=
  match getitem (_item_list self) (cursor_line self) with
  | Some node => mkRun self [EventStop; PostItemSelected node] (Return tt)
  | None => mkRun self [EventStop] (Raise IndexError)
  end.

(** One turn of the loop of [add_items]: [i] is the number handed out by
    [enumerate]. *)
Definition add_item (i : Z) (item : string) (self : ItemControl)
  : ItemControl :=
  let self1 := if i =? 0 then set_cursor (Some i) self else self in
  {| _item_list := _item_list self1 ++ [mkItemNode i item];
     cursor := cursor self1;
     cursor_line := cursor_line self1 |}.

Fixpoint add_from (i : Z) (items : list string) (self : ItemControl)
  : ItemControl :=
  match items with
  | [] => self
  | item :: rest => add_from (i + 1) rest (add_item i item self)
  end.

(** [enumerate(items, len(self._item_list))]: the start is read once. *)
Definition add_items (items : list string) (self : ItemControl)
  : ItemControl :=
  add_from (Z.of_nat (List.length (_item_list self))) items self.

Definition action_click_item (item_id : Z) (self : ItemControl)
  : ItemControl :=
  set_cursor_line item_id (set_cursor (Some item_id) self).

(** [ItemNode.is_cursor]: [self.control.cursor == self.id]. *)
Definition is_cursor (self : ItemControl) (node : ItemNode) : bool :=
  match cursor self with
  | Some c => c =? id node
  | None => false
  end.

(** The identifiers of a list of [n] nodes numbered by position. *)
Definition positions (n : nat) : list Z := map Z.of_nat (seq 0 n).

(** Every node carries its row as identifier. *)
Definition numbered (self : ItemControl) : Prop :=
  map id (_item_list self) = positions (List.length (_item_list self)).

End WidgetsCopy.

(** ** Observations on events *)

(** The items an event hands to the widget. *)
Definition added_by (o : op) : list string :=
  match o with
  | AddItems l => l
  | _ => []
  end.

(** A key event arrives while the widget has a usable viewport; the other
    events need none. *)
Definition op_usable (o : op) : bool :=
  match o with
  | KeyDown env | KeyUp env => usable env
  | _ => true
  end.

(** The events that assign an integer to [selected_index] whatever the
    state: the mount, an integer assignment and the two keys. *)
Definition assigns_index (o : op) : bool :=
  match o with
  | AddItems _ => false
  | SetSelectedIndex None => false
  | _ => true
  end.

(** A message whose tag is the class of the widget and whose label is one of
    the given items. *)
Definition names_item (c : widget_class) (l : list string) (m : Message) : Prop :=
  exists item, m = ItemSelected c item /\ In item l.

(** * Properties *)

(** ** Sequencing *)

Lemma bind_return {A B : Type} (m : M A) (f : A -> M B) self s t a :
  m self = mkRun s t (Return a) ->
  bind m f self = mkRun (final (f a s)) (t ++ trace (f a s)) (result (f a s)).
Proof. intros E. unfold bind. rewrite E. destruct (f a s); reflexivity. Qed.

Lemma bind_raise {A B : Type} (m : M A) (f : A -> M B) self s t e :
  m self = mkRun s t (Raise e) ->
  bind m f self = mkRun s t (Raise e).
Proof. intros E. unfold bind. rewrite E. reflexivity. Qed.

Lemma run_eta {A : Type} (r : Run A) :
  mkRun (final r) (trace r) (result r) = r.
Proof. destruct r; reflexivity. Qed.

(** ** Lists and clamping *)

Lemma len_nonneg l : 0 <= len l.
Proof. unfold len. lia. Qed.

Lemma len_app l k : len (l ++ k) = len l + len k.
Proof. unfold len. rewrite length_app. lia. Qed.

Lemma is_empty_false_len l : is_empty l = false -> 1 <= len l.
Proof. destruct l; [discriminate|]. intros _. unfold len. cbn [List.length]. lia. Qed.

Lemma is_empty_true l : is_empty l = true -> l = [].
Proof. destruct l; [reflexivity | discriminate]. Qed.

Lemma is_empty_false l : l <> [] -> is_empty l = false.
Proof. destruct l; [congruence | reflexivity]. Qed.

Lemma clamp_max_min v lo hi : lo <= hi -> clamp v lo hi = Z.max lo (Z.min v hi).
Proof.
  intros H. unfold clamp.
  destruct (hi <? lo) eqn:E; [apply Z.ltb_lt in E; lia|].
  destruct (v <? lo) eqn:E1; [apply Z.ltb_lt in E1; lia|].
  apply Z.ltb_ge in E1.
  destruct (hi <? v) eqn:E2; [apply Z.ltb_lt in E2 | apply Z.ltb_ge in E2]; lia.
Qed.

Lemma clamp_range v hi : 0 <= hi -> 0 <= clamp v 0 hi <= hi.
Proof. intros H. rewrite clamp_max_min by lia. lia. Qed.

Lemma getitem_in_range l i self :
  0 <= i <= len l - 1 ->
  exists x, nth_error l (Z.to_nat i) = Some x /\
            getitem l i self = mkRun self [] (Return x).
Proof.
  intros H. unfold getitem.
  destruct (i <? 0) eqn:E; [apply Z.ltb_lt in E; lia|]. rewrite E.
  destruct (nth_error l (Z.to_nat i)) as [x|] eqn:N.
  - exists x. split; reflexivity.
  - apply nth_error_None in N. unfold len in H. lia.
Qed.

(** ** The setter *)

(** On a list with items the setter stores the clamped index, emits one
    message for the item under it and asks for a refresh. *)
Lemma setter_nonempty v self :
  _items self <> [] ->
  exists item,
    nth_error (_items self) (Z.to_nat (clamp v 0 (len (_items self) - 1)))
      = Some item /\
    selected_index_setter (Some v) self =
      mkRun (set_field (Some (clamp v 0 (len (_items self) - 1))) self)
            [Emit (ItemSelected (cls self) item); Refresh true]
            (Return tt).
Proof.
  intros NE. pose proof (is_empty_false _ NE) as IE.
  pose proof (is_empty_false_len _ IE) as L.
  set (idx := clamp v 0 (len (_items self) - 1)).
  assert (R : 0 <= idx <= len (_items self) - 1) by (apply clamp_range; lia).
  destruct (getitem_in_range (_items self) idx (set_field (Some idx) self) R)
    as (item & N & G).
  exists item. split; [exact N|].
  unfold selected_index_setter, _clamp_index, bind, read, update, perform, ret.
  cbn [final trace result]. rewrite IE. cbn [final trace result].
  fold idx. cbn [set_field _items cls] in *. rewrite G.
  reflexivity.
Qed.

(** On an empty list the setter stores [None] and emits nothing. *)
Lemma setter_empty v self :
  _items self = [] ->
  selected_index_setter (Some v) self =
    mkRun (set_field None self) [Refresh true] (Return tt).
Proof.
  intros E.
  unfold selected_index_setter, _clamp_index, bind, read, update, perform, ret.
  cbn [final trace result]. rewrite E. reflexivity.
Qed.

Lemma setter_none self :
  selected_index_setter None self = mkRun self [Refresh true] (Return tt).
Proof. reflexivity. Qed.

(** ** The key handlers *)

Ltac step_bind :=
  cbv beta iota delta
    [bind read update perform ret raise selected_index py_add py_sub py_mod
     parent_scroll_offset_y content_height has_parent].

(** [key_down] on a list with items, an integer selection and a parent of
    non-zero height. *)
Lemma key_down_run env p s self :
  _items self <> [] ->
  _selected_index self = Some (Some s) ->
  parent env = Some p ->
  content_size_height p <> 0 ->
  let idx := clamp (s + 1) 0 (len (_items self) - 1) in
  let r := (idx - scroll_offset_y p) mod content_size_height p in
  exists item,
    nth_error (_items self) (Z.to_nat idx) = Some item /\
    key_down env self =
      mkRun (set_field (Some idx) self)
            ([EventStop; Emit (ItemSelected (cls self) item); Refresh true; Log r]
               ++ (if r =? 0 then [ScrollDown false] else [])
               ++ [LogScrollOffset])
            (Return tt).
Proof.
  intros NE S P H. cbv zeta.
  destruct (setter_nonempty (s + 1) self NE) as (item & N & E).
  exists item. split; [exact N|].
  apply Z.eqb_neq in H.
  unfold key_down. step_bind. rewrite S. cbn beta iota.
  rewrite E. simpl. rewrite P. simpl. rewrite H. simpl.
  match goal with
  | |- context [if (?c =? 0) && true then _ else _] => destruct (c =? 0)
  end; reflexivity.
Qed.

(** [key_up] under the same conditions. *)
Lemma key_up_run env p s self :
  _items self <> [] ->
  _selected_index self = Some (Some s) ->
  parent env = Some p ->
  content_size_height p <> 0 ->
  let idx := clamp (s - 1) 0 (len (_items self) - 1) in
  let r := (idx + 1 - scroll_offset_y p) mod content_size_height p in
  exists item,
    nth_error (_items self) (Z.to_nat idx) = Some item /\
    key_up env self =
      mkRun (set_field (Some idx) self)
            ([EventStop; Emit (ItemSelected (cls self) item); Refresh true; Log r]
               ++ (if r =? 0 then [ScrollUp false] else []))
            (Return tt).
Proof.
  intros NE S P H. cbv zeta.
  destruct (setter_nonempty (s - 1) self NE) as (item & N & E).
  exists item. split; [exact N|].
  apply Z.eqb_neq in H.
  unfold key_up. step_bind. rewrite S. cbn beta iota.
  rewrite E. simpl. rewrite P. simpl. rewrite H. simpl.
  match goal with
  | |- context [if (?c =? 0) && true then _ else _] => destruct (c =? 0)
  end; reflexivity.
Qed.

Lemma preserves_ret {A : Type} (a : A) : preserves (ret a).
Proof. intros self. reflexivity. Qed.

Lemma preserves_raise {A : Type} (e : exn) : preserves (@raise A e).
Proof. intros self. reflexivity. Qed.

Lemma preserves_perform e : preserves (perform e).
Proof. intros self. reflexivity. Qed.

Lemma preserves_read {A : Type} (f : ItemControl -> A) : preserves (read f).
Proof. intros self. reflexivity. Qed.

Lemma preserves_bind {A B : Type} (m : M A) (f : A -> M B) :
  preserves m -> (forall a, preserves (f a)) -> preserves (bind m f).
Proof.
  intros Hm Hf self. unfold bind. specialize (Hm self).
  destruct (m self) as [s t [a|e]]; cbn [final] in *; subst s.
  - specialize (Hf a self). destruct (f a self); exact Hf.
  - reflexivity.
Qed.

Lemma preserves_py_add a b : preserves (py_add a b).
Proof. destruct a; intros self; reflexivity. Qed.

Lemma preserves_py_sub a b : preserves (py_sub a b).
Proof. destruct a; intros self; reflexivity. Qed.

Lemma preserves_py_mod a b : preserves (py_mod a b).
Proof. unfold py_mod. destruct (b =? 0); intros self; reflexivity. Qed.

Lemma preserves_parent_scroll_offset_y env : preserves (parent_scroll_offset_y env).
Proof.
  unfold parent_scroll_offset_y. destruct (parent env); intros self; reflexivity.
Qed.

Lemma preserves_selected_index : preserves selected_index.
Proof.
  intros self. unfold selected_index, bind, read.
  destruct (_selected_index self); reflexivity.
Qed.

Lemma preserves_if {A : Type} (b : bool) (m k : M A) :
  preserves m -> preserves k -> preserves (if b then m else k).
Proof. destruct b; auto. Qed.

Create HintDb frame.
#[local] Hint Resolve preserves_ret preserves_raise preserves_perform
  preserves_read preserves_py_add preserves_py_sub preserves_py_mod
  preserves_parent_scroll_offset_y preserves_selected_index preserves_if
  : frame.

Ltac frame :=
  first [ solve [auto with frame]
        | apply preserves_bind; [frame | intros; frame] ].

(** When the continuation leaves the widget alone, the final state is the
    one after the first computation. *)
Lemma bind_final {A B : Type} (m : M A) (f : A -> M B) self :
  (forall a, preserves (f a)) ->
  final (bind m f self) = final (m self).
Proof.
  intros Hf. unfold bind.
  destruct (m self) as [s t [a|e]]; cbn [final]; [|reflexivity].
  specialize (Hf a s). destruct (f a s); exact Hf.
Qed.

Lemma selected_index_run v self :
  _selected_index self = Some v ->
  selected_index self = mkRun self [] (Return v).
Proof. intros S. unfold selected_index, bind, read. rewrite S. reflexivity. Qed.

Lemma selected_index_unset self :
  _selected_index self = None ->
  selected_index self = mkRun self [] (Raise AttributeError).
Proof. intros S. unfold selected_index, bind, read. rewrite S. reflexivity. Qed.

(** Whatever the surroundings, a key handler leaves the list alone, and the
    selection it leaves is either the old one or the clamped neighbour. *)
Lemma key_down_final env self :
  final (key_down env self) = self \/
  exists s, _selected_index self = Some (Some s) /\
    final (key_down env self) = final (selected_index_setter (Some (s + 1)) self).
Proof.
  destruct (_selected_index self) as [[s|]|] eqn:S.
  - right. exists s. split; [reflexivity|]. unfold key_down.
    rewrite (bind_return _ _ _ _ _ _ (eq_refl (perform EventStop self))).
    cbn [final].
    rewrite (bind_return _ _ _ _ _ _ (selected_index_run _ _ S)).
    cbn [final].
    rewrite (bind_return _ _ _ _ _ _ (eq_refl (py_add (Some s) 1 self))).
    cbn [final].
    apply bind_final. intros _. frame.
  - left. unfold key_down.
    rewrite (bind_return _ _ _ _ _ _ (eq_refl (perform EventStop self))).
    cbn [final].
    rewrite (bind_return _ _ _ _ _ _ (selected_index_run _ _ S)).
    reflexivity.
  - left. unfold key_down.
    rewrite (bind_return _ _ _ _ _ _ (eq_refl (perform EventStop self))).
    cbn [final].
    rewrite (bind_raise _ _ _ _ _ _ (selected_index_unset _ S)).
    reflexivity.
Qed.

Lemma key_up_final env self :
  final (key_up env self) = self \/
  exists s, _selected_index self = Some (Some s) /\
    final (key_up env self) = final (selected_index_setter (Some (s - 1)) self).
Proof.
  destruct (_selected_index self) as [[s|]|] eqn:S.
  - right. exists s. split; [reflexivity|]. unfold key_up.
    rewrite (bind_return _ _ _ _ _ _ (eq_refl (perform EventStop self))).
    cbn [final].
    rewrite (bind_return _ _ _ _ _ _ (selected_index_run _ _ S)).
    cbn [final].
    rewrite (bind_return _ _ _ _ _ _ (eq_refl (py_sub (Some s) 1 self))).
    cbn [final].
    apply bind_final. intros _. frame.
  - left. unfold key_up.
    rewrite (bind_return _ _ _ _ _ _ (eq_refl (perform EventStop self))).
    cbn [final].
    rewrite (bind_return _ _ _ _ _ _ (selected_index_run _ _ S)).
    reflexivity.
  - left. unfold key_up.
    rewrite (bind_return _ _ _ _ _ _ (eq_refl (perform EventStop self))).
    cbn [final].
    rewrite (bind_raise _ _ _ _ _ _ (selected_index_unset _ S)).
    reflexivity.
Qed.

(** With an integer selection the state a key handler leaves is the one
    the setter leaves, whatever happens afterwards. *)
Lemma key_down_final_int env s self :
  _selected_index self = Some (Some s) ->
  final (key_down env self) = final (selected_index_setter (Some (s + 1)) self).
Proof.
  intros S. unfold key_down.
  rewrite (bind_return _ _ _ _ _ _ (eq_refl (perform EventStop self))).
  cbn [final].
  rewrite (bind_return _ _ _ _ _ _ (selected_index_run _ _ S)).
  cbn [final].
  rewrite (bind_return _ _ _ _ _ _ (eq_refl (py_add (Some s) 1 self))).
  cbn [final].
  apply bind_final. intros _. frame.
Qed.

Lemma key_up_final_int env s self :
  _selected_index self = Some (Some s) ->
  final (key_up env self) = final (selected_index_setter (Some (s - 1)) self).
Proof.
  intros S. unfold key_up.
  rewrite (bind_return _ _ _ _ _ _ (eq_refl (perform EventStop self))).
  cbn [final].
  rewrite (bind_return _ _ _ _ _ _ (selected_index_run _ _ S)).
  cbn [final].
  rewrite (bind_return _ _ _ _ _ _ (eq_refl (py_sub (Some s) 1 self))).
  cbn [final].
  apply bind_final. intros _. frame.
Qed.

(** ** The invariant *)

(** The boolean invariant says what the data model asks for. *)
Lemma invariant_spec self :
  invariant self = true <->
  exists sel,
    _selected_index self = Some sel /\
    (_items self <> [] ->
     exists i, sel = Some i /\ 0 <= i <= len (_items self) - 1) /\
    (_items self = [] -> sel = None).
Proof.
  unfold invariant. split.
  - destruct (_selected_index self) as [[i|]|]; [| |discriminate]; intros H.
    + apply andb_prop in H. destruct H as [H H2].
      apply andb_prop in H. destruct H as [H0 H1].
      apply Z.leb_le in H1, H2. exists (Some i). split; [reflexivity|].
      split.
      * intros _. exists i. split; [reflexivity | lia].
      * intros E. rewrite E in H0. discriminate.
    + apply is_empty_true in H. exists None. split; [reflexivity|].
      split; [congruence | reflexivity].
  - intros (sel & S & A & B). rewrite S.
    destruct (_items self) as [|x l] eqn:E.
    + rewrite B by reflexivity. reflexivity.
    + destruct A as (i & -> & R); [discriminate|].
      cbn [is_empty negb andb].
      apply andb_true_intro; split; apply Z.leb_le; lia.
Qed.

Lemma invariant_set_field_clamp v self :
  _items self <> [] ->
  invariant (set_field (Some (clamp v 0 (len (_items self) - 1))) self) = true.
Proof.
  intros NE. pose proof (is_empty_false _ NE) as IE.
  pose proof (is_empty_false_len _ IE) as L.
  pose proof (clamp_range v (len (_items self) - 1) ltac:(lia)) as R.
  unfold invariant. cbn [set_field _selected_index _items]. rewrite IE.
  cbn [negb andb].
  apply andb_true_intro; split; apply Z.leb_le; lia.
Qed.

(** An integer assignment establishes the invariant from any state. *)
Lemma setter_some_invariant v self :
  invariant (final (selected_index_setter (Some v) self)) = true.
Proof.
  destruct (_items self) as [|x l] eqn:E.
  - rewrite (setter_empty v self E). cbn [final]. unfold invariant.
    cbn [set_field _selected_index _items]. rewrite E. reflexivity.
  - assert (NE : _items self <> []) by congruence.
    destruct (setter_nonempty v self NE) as (item & _ & R). rewrite R.
    cbn [final]. apply invariant_set_field_clamp. exact NE.
Qed.

Lemma setter_invariant v self :
  invariant self = true ->
  invariant (final (selected_index_setter v self)) = true.
Proof.
  intros I. destruct v as [v|].
  - apply setter_some_invariant.
  - rewrite setter_none. exact I.
Qed.

Lemma add_items_run_some i new_items self :
  _selected_index self = Some (Some i) ->
  add_items new_items self = mkRun (extend new_items self) [] (Return tt).
Proof.
  intros S. unfold add_items, bind, update.
  rewrite (selected_index_run (Some i) (extend new_items self) S).
  reflexivity.
Qed.

Lemma add_items_run_none new_items self :
  _selected_index self = Some None ->
  add_items new_items self =
    selected_index_setter (Some 0) (extend new_items self).
Proof.
  intros S. unfold add_items, bind, update.
  rewrite (selected_index_run None (extend new_items self) S).
  destruct (selected_index_setter (Some 0) (extend new_items self));
    reflexivity.
Qed.

Lemma add_items_run_unset new_items self :
  _selected_index self = None ->
  add_items new_items self =
    mkRun (extend new_items self) [] (Raise AttributeError).
Proof.
  intros S. unfold add_items, bind, update.
  rewrite (selected_index_unset (extend new_items self) S).
  reflexivity.
Qed.

Lemma add_items_invariant new_items self :
  invariant self = true ->
  invariant (final (add_items new_items self)) = true.
Proof.
  intros I. unfold invariant in I.
  destruct (_selected_index self) as [[i|]|] eqn:S; [| |discriminate].
  - rewrite (add_items_run_some i new_items self S). cbn [final].
    apply andb_prop in I. destruct I as [I I2].
    apply andb_prop in I. destruct I as [I0 I1].
    apply Z.leb_le in I1, I2.
    unfold invariant. cbn [extend _selected_index _items]. rewrite S.
    destruct (_items self) as [|x l]; [discriminate|].
    cbn [app is_empty negb andb].
    apply andb_true_intro; split; apply Z.leb_le; [lia|].
    change (x :: l ++ new_items) with ((x :: l) ++ new_items).
    rewrite len_app. pose proof (len_nonneg new_items). lia.
  - rewrite (add_items_run_none new_items self S). apply setter_some_invariant.
Qed.

Lemma key_down_invariant env self :
  invariant self = true -> invariant (final (key_down env self)) = true.
Proof.
  intros I. destruct (key_down_final env self) as [E|(s & _ & E)]; rewrite E.
  - exact I.
  - apply setter_some_invariant.
Qed.

Lemma key_up_invariant env self :
  invariant self = true -> invariant (final (key_up env self)) = true.
Proof.
  intros I. destruct (key_up_final env self) as [E|(s & _ & E)]; rewrite E.
  - exact I.
  - apply setter_some_invariant.
Qed.

Lemma exec_invariant o self :
  invariant self = true -> invariant (final (exec o self)) = true.
Proof.
  intros I. destruct o; cbn [exec].
  - apply setter_some_invariant.
  - apply add_items_invariant, I.
  - apply setter_invariant, I.
  - apply key_down_invariant, I.
  - apply key_up_invariant, I.
Qed.

Lemma invariant_consistent self :
  invariant self = true -> consistent self = true.
Proof.
  intros I. unfold consistent. destruct (_selected_index self); auto.
Qed.

Lemma exec_consistent o self :
  consistent self = true -> consistent (final (exec o self)) = true.
Proof.
  unfold consistent at 1. destruct (_selected_index self) as [v|] eqn:S.
  - intros I. apply invariant_consistent, exec_invariant, I.
  - intros _. destruct o as [|l|[v|]|env|env]; cbn [exec].
    + apply invariant_consistent, setter_some_invariant.
    + rewrite (add_items_run_unset l self S). cbn [final].
      unfold consistent. cbn [extend _selected_index]. rewrite S. reflexivity.
    + apply invariant_consistent, setter_some_invariant.
    + rewrite setter_none. cbn [final]. unfold consistent. rewrite S. reflexivity.
    + destruct (key_down_final env self) as [E|(s & E & _)]; [|congruence].
      rewrite E. unfold consistent. rewrite S. reflexivity.
    + destruct (key_up_final env self) as [E|(s & E & _)]; [|congruence].
      rewrite E. unfold consistent. rewrite S. reflexivity.
Qed.

Lemma reachable_consistent self : reachable self -> consistent self = true.
Proof.
  induction 1 as [c|o self R IH].
  - reflexivity.
  - apply exec_consistent, IH.
Qed.

(** * The claims *)

Local Open Scope string_scope.
Local Open Scope Z_scope.
Local Open Scope list_scope.

(** The scenario of the specification: three environments, the cursor
    moved down twice. Mounting emits nothing, the load selects the first
    item, and each press selects the next one. *)
Example scenario_two_presses :
  let env := mkEnv (Some (mkViewport 10 0)) 10 in
  let r := script [Mount; AddItems ["env1"; "env2.yaml"; "env3"];
                   KeyDown env; KeyDown env] (__init__ EnvList) in
  _selected_index (final r) = Some (Some 2) /\
  notifications (trace r)
    = [ItemSelected EnvList "env1"; ItemSelected EnvList "env2.yaml";
       ItemSelected EnvList "env3"] /\
  scroll_requests (trace r) = [] /\
  result r = Return tt.
Proof. cbv zeta. repeat split. Qed.

(** C1. On a mounted widget with an empty list the selection is [None], and
    [self.selected_index += 1] (or [-= 1]) adds an integer to [None]: both
    key handlers raise [TypeError] right after stopping the event. The
    selection stays [None] and no message is emitted, but the handler is
    not the silent no-op the claim describes. *)
Theorem key_handlers_raise_on_empty_list (c : widget_class) (env : Env) :
  let self := mkItemControl c [] (Some None) in
  key_down env self = mkRun self [EventStop] (Raise TypeError) /\
  key_up env self = mkRun self [EventStop] (Raise TypeError).
Proof. split; reflexivity. Qed.

(** C2, as stated, fails: assigning 0 to a one-item list whose selection is
    already 0 leaves the selection where it was and still emits a message,
    so "a message is emitted exactly when the selection changed" is false. *)
Lemma setter_notifies_unchanged_selection :
  let self := mkItemControl EnvList ["a"] (Some (Some 0)) in
  let r := selected_index_setter (Some 0) self in
  _selected_index (final r) = _selected_index self /\
  notifications (trace r) = [ItemSelected EnvList "a"] /\
  ~ (notifications (trace r) <> [] <->
     _selected_index (final r) <> _selected_index self).
Proof.
  cbv zeta. split; [reflexivity|]. split; [reflexivity|].
  intros [H _]. apply H; [discriminate | reflexivity].
Qed.

(** C2, amended. On a list with items every assignment of an integer emits
    exactly one [ItemSelected] message, carrying the label at the clamped
    index and tagged with the class of the widget, whether or not the
    clamped index is the one already selected; it returns normally and
    stores the clamped index. Assigning [None] emits nothing and leaves the
    selection as it was. *)
Theorem setter_always_notifies (v : Z) (self : ItemControl) :
  _items self <> [] ->
  let idx := clamp v 0 (len (_items self) - 1) in
  let r := selected_index_setter (Some v) self in
  (exists item,
      nth_error (_items self) (Z.to_nat idx) = Some item /\
      notifications (trace r) = [ItemSelected (cls self) item]) /\
  _selected_index (final r) = Some (Some idx) /\
  result r = Return tt /\
  notifications (trace (selected_index_setter None self)) = [] /\
  final (selected_index_setter None self) = self.
Proof.
  intros NE idx r.
  destruct (setter_nonempty v self NE) as (item & N & E).
  subst r. rewrite E. cbn [final trace result notifications].
  split; [exists item; split; [exact N | reflexivity]|].
  repeat split.
Qed.

Lemma setter_always_notifies_witness :
  let self := mkItemControl ProfileList ["p1"; "p2"] (Some (Some 1)) in
  _items self <> [] /\
  notifications (trace (selected_index_setter (Some 7) self))
    = [ItemSelected ProfileList "p2"] /\
  _selected_index (final (selected_index_setter (Some 7) self))
    = Some (Some 1).
Proof.
  cbv zeta.
  assert (NE : _items (mkItemControl ProfileList ["p1"; "p2"] (Some (Some 1))) <> [])
    by (cbn; discriminate).
  split; [exact NE|].
  destruct (setter_always_notifies 7 _ NE) as (_ & S & _).
  split; [reflexivity | exact S].
Defined.

(** C3. With a list that has items, selection [s], a parent viewport at
    scroll offset [o] and content height [h > 0]: [key_down] issues the
    single request [scroll_down(animate=False)] exactly when
    [(new_index - o) mod h = 0] for [new_index] the clamped [s + 1], and no
    scroll request otherwise; [key_up] issues the single request
    [scroll_up(animate=False)] exactly when [(new_index + 1 - o) mod h = 0]
    for [new_index] the clamped [s - 1], and none otherwise. *)
Theorem key_scroll_condition (env : Env) (p : Viewport) (s : Z)
    (self : ItemControl) :
  _items self <> [] ->
  _selected_index self = Some (Some s) ->
  parent env = Some p ->
  0 < content_size_height p ->
  let o := scroll_offset_y p in
  let h := content_size_height p in
  let down := clamp (s + 1) 0 (len (_items self) - 1) in
  let up := clamp (s - 1) 0 (len (_items self) - 1) in
  (scroll_requests (trace (key_down env self)) = [ScrollDown false]
     <-> (down - o) mod h = 0) /\
  (scroll_requests (trace (key_down env self)) = []
     <-> (down - o) mod h <> 0) /\
  (scroll_requests (trace (key_up env self)) = [ScrollUp false]
     <-> (up + 1 - o) mod h = 0) /\
  (scroll_requests (trace (key_up env self)) = []
     <-> (up + 1 - o) mod h <> 0).
Proof.
  intros NE S P H o h down up.
  assert (H0 : content_size_height p <> 0) by lia.
  destruct (key_down_run env p s self NE S P H0) as (i1 & _ & D).
  destruct (key_up_run env p s self NE S P H0) as (i2 & _ & U).
  cbv zeta in D, U. fold o h down in D. fold o h up in U.
  rewrite D, U. cbn [trace]. unfold scroll_requests.
  cbn [app filter is_scroll].
  repeat split.
  - destruct ((down - o) mod h =? 0) eqn:E; cbn [app filter is_scroll];
      [intros _; apply Z.eqb_eq, E | discriminate].
  - intros E. apply Z.eqb_eq in E. rewrite E. reflexivity.
  - destruct ((down - o) mod h =? 0) eqn:E; cbn [app filter is_scroll];
      [discriminate | intros _; apply Z.eqb_neq, E].
  - intros E. apply Z.eqb_neq in E. rewrite E. reflexivity.
  - destruct ((up + 1 - o) mod h =? 0) eqn:E; cbn [app filter is_scroll];
      [intros _; apply Z.eqb_eq, E | discriminate].
  - intros E. apply Z.eqb_eq in E. rewrite E. reflexivity.
  - destruct ((up + 1 - o) mod h =? 0) eqn:E; cbn [app filter is_scroll];
      [discriminate | intros _; apply Z.eqb_neq, E].
  - intros E. apply Z.eqb_neq in E. rewrite E. reflexivity.
Qed.

Lemma key_scroll_condition_witness :
  let env := mkEnv (Some (mkViewport 3 1)) 3 in
  let self := mkItemControl EnvList ["a"; "b"; "c"; "d"; "e"] (Some (Some 3)) in
  scroll_requests (trace (key_down env self)) = [ScrollDown false] /\
  scroll_requests (trace (key_up env self)) = [].
Proof.
  cbv zeta.
  destruct (key_scroll_condition (mkEnv (Some (mkViewport 3 1)) 3)
              (mkViewport 3 1) 3
              (mkItemControl EnvList ["a"; "b"; "c"; "d"; "e"] (Some (Some 3))))
    as (D & _ & _ & U).
  - cbn; discriminate.
  - reflexivity.
  - reflexivity.
  - cbn; lia.
  - split.
    + apply D. reflexivity.
    + apply U. cbn. discriminate.
Defined.

(** C4, as stated, fails: with five items, content height 5 and scroll
    offset 0, the [key_down] that moves the selection from 3 to 4 computes
    [(4 - 0) mod 5 = 4] and issues no scroll request at all. *)
Lemma key_down_to_index_4_does_not_scroll :
  let env := mkEnv (Some (mkViewport 5 0)) 5 in
  let self := mkItemControl EnvList ["a"; "b"; "c"; "d"; "e"] (Some (Some 3)) in
  _selected_index (final (key_down env self)) = Some (Some 4) /\
  result (key_down env self) = Return tt /\
  scroll_requests (trace (key_down env self)) = [] /\
  scroll_requests (trace (key_down env self)) <> [ScrollDown false].
Proof. cbv zeta. repeat split. discriminate. Qed.

(** C4, amended. With content height 5 and scroll offset 0 the first row
    below the visible ones is row 5: on a list of at least six items the
    [key_down] that moves the selection to index 5 issues exactly one
    [scroll_down(animate=False)] request, and the ones that move it to
    index 4 and to index 3 issue none. *)
Theorem key_down_scrolls_at_index_5 (c : widget_class) (l : list string)
    (container_height : Z) :
  6 <= len l ->
  let env := mkEnv (Some (mkViewport 5 0)) container_height in
  let at_index s := mkItemControl c l (Some (Some s)) in
  (_selected_index (final (key_down env (at_index 4))) = Some (Some 5) /\
   scroll_requests (trace (key_down env (at_index 4))) = [ScrollDown false]) /\
  (_selected_index (final (key_down env (at_index 3))) = Some (Some 4) /\
   scroll_requests (trace (key_down env (at_index 3))) = []) /\
  (_selected_index (final (key_down env (at_index 2))) = Some (Some 3) /\
   scroll_requests (trace (key_down env (at_index 2))) = []).
Proof.
  intros L env at_index.
  assert (NE : forall s, _items (at_index s) <> []).
  { intros s E. cbn in E. subst l. cbn in L. lia. }
  assert (K : forall s, 0 <= s + 1 <= len l - 1 ->
            _selected_index (final (key_down env (at_index s))) = Some (Some (s + 1)) /\
            scroll_requests (trace (key_down env (at_index s))) =
              if (s + 1) mod 5 =? 0 then [ScrollDown false] else []).
  { intros s R.
    destruct (key_down_run env (mkViewport 5 0) s (at_index s) (NE s)
                eq_refl eq_refl ltac:(cbn; lia)) as (item & _ & E).
    cbv zeta in E. cbn [at_index _items content_size_height scroll_offset_y] in E.
    rewrite clamp_max_min in E by lia.
    replace (Z.max 0 (Z.min (s + 1) (len l - 1))) with (s + 1) in E by lia.
    rewrite Z.sub_0_r in E. rewrite E.
    cbn [final trace set_field _selected_index]. split; [reflexivity|].
    unfold scroll_requests. cbn [app filter is_scroll].
    destruct ((s + 1) mod 5 =? 0); reflexivity. }
  split; [|split].
  - apply (K 4). lia.
  - apply (K 3). lia.
  - apply (K 2). lia.
Qed.

Lemma key_down_scrolls_at_index_5_witness :
  let l := ["a"; "b"; "c"; "d"; "e"; "f"; "g"] in
  let env := mkEnv (Some (mkViewport 5 0)) 5 in
  6 <= len l /\
  scroll_requests (trace (key_down env (mkItemControl EnvList l (Some (Some 4)))))
    = [ScrollDown false] /\
  scroll_requests (trace (key_down env (mkItemControl EnvList l (Some (Some 3)))))
    = [].
Proof.
  cbv zeta.
  assert (L : 6 <= len ["a"; "b"; "c"; "d"; "e"; "f"; "g"]) by (cbn; lia).
  split; [exact L|].
  destruct (key_down_scrolls_at_index_5 EnvList _ 5 L) as ((_ & A) & (_ & B) & _).
  split; [exact A | exact B].
Defined.

(** ** Repeated key presses *)

Lemma usable_parent env :
  usable env = true ->
  exists p, parent env = Some p /\ content_size_height p <> 0.
Proof.
  unfold usable. destruct (parent env) as [p|]; [|discriminate].
  intros H. exists p. split; [reflexivity|].
  apply negb_true_iff, Z.eqb_neq in H. exact H.
Qed.

Lemma presses_key_down envs : forall s self,
  forallb usable envs = true ->
  _items self <> [] ->
  _selected_index self = Some (Some s) ->
  0 <= s <= len (_items self) - 1 ->
  result (presses key_down envs self) = Return tt /\
  _items (final (presses key_down envs self)) = _items self /\
  _selected_index (final (presses key_down envs self)) =
    Some (Some (Z.min (s + Z.of_nat (List.length envs)) (len (_items self) - 1))).
Proof.
  induction envs as [|env rest IH]; intros s self U NE S R.
  - cbn. rewrite S. repeat split. f_equal. f_equal. lia.
  - cbn [forallb] in U. apply andb_prop in U. destruct U as [U1 U2].
    destruct (usable_parent env U1) as (p & P & H).
    destruct (key_down_run env p s self NE S P H) as (item & _ & E).
    cbv zeta in E.
    cbn [presses]. rewrite (bind_return _ _ _ _ _ _ E).
    cbn [final trace result].
    set (self' := set_field (Some (clamp (s + 1) 0 (len (_items self) - 1))) self).
    assert (R' : 0 <= clamp (s + 1) 0 (len (_items self) - 1)
                   <= len (_items self) - 1) by (apply clamp_range; lia).
    destruct (IH _ self' U2 NE eq_refl R') as (A & B & C).
    split; [exact A|]. split; [exact B|].
    rewrite C. cbn [self' set_field _items]. f_equal. f_equal.
    rewrite clamp_max_min by lia. cbn [List.length]. lia.
Qed.

Lemma presses_key_up envs : forall s self,
  forallb usable envs = true ->
  _items self <> [] ->
  _selected_index self = Some (Some s) ->
  0 <= s <= len (_items self) - 1 ->
  result (presses key_up envs self) = Return tt /\
  _items (final (presses key_up envs self)) = _items self /\
  _selected_index (final (presses key_up envs self)) =
    Some (Some (Z.max (s - Z.of_nat (List.length envs)) 0)).
Proof.
  induction envs as [|env rest IH]; intros s self U NE S R.
  - cbn. rewrite S. repeat split. f_equal. f_equal. lia.
  - cbn [forallb] in U. apply andb_prop in U. destruct U as [U1 U2].
    destruct (usable_parent env U1) as (p & P & H).
    destruct (key_up_run env p s self NE S P H) as (item & _ & E).
    cbv zeta in E.
    cbn [presses]. rewrite (bind_return _ _ _ _ _ _ E).
    cbn [final trace result].
    set (self' := set_field (Some (clamp (s - 1) 0 (len (_items self) - 1))) self).
    assert (R' : 0 <= clamp (s - 1) 0 (len (_items self) - 1)
                   <= len (_items self) - 1) by (apply clamp_range; lia).
    destruct (IH _ self' U2 NE eq_refl R') as (A & B & C).
    split; [exact A|]. split; [exact B|].
    rewrite C. f_equal. f_equal.
    rewrite clamp_max_min by lia. cbn [List.length]. lia.
Qed.

Lemma after_presses_cons key env rest self :
  after_presses key (env :: rest) self
    = after_presses key rest (final (key env self)).
Proof. reflexivity. Qed.

Lemma after_presses_key_down envs : forall s self,
  _items self <> [] ->
  _selected_index self = Some (Some s) ->
  0 <= s <= len (_items self) - 1 ->
  _items (after_presses key_down envs self) = _items self /\
  _selected_index (after_presses key_down envs self) =
    Some (Some (Z.min (s + Z.of_nat (List.length envs)) (len (_items self) - 1))).
Proof.
  induction envs as [|env rest IH]; intros s self NE S R.
  - cbn. rewrite S. split; [reflexivity|]. do 2 f_equal. lia.
  - rewrite after_presses_cons.
    destruct (setter_nonempty (s + 1) self NE) as (item & _ & E).
    rewrite (key_down_final_int env s self S), E. cbn [final].
    set (self' := set_field (Some (clamp (s + 1) 0 (len (_items self) - 1))) self).
    assert (R' : 0 <= clamp (s + 1) 0 (len (_items self) - 1)
                   <= len (_items self) - 1) by (apply clamp_range; lia).
    destruct (IH _ self' NE eq_refl R') as (A & B).
    split; [exact A|]. rewrite B. cbn [self' set_field _items].
    do 2 f_equal. rewrite clamp_max_min by lia. cbn [List.length]. lia.
Qed.

Lemma after_presses_key_up envs : forall s self,
  _items self <> [] ->
  _selected_index self = Some (Some s) ->
  0 <= s <= len (_items self) - 1 ->
  _items (after_presses key_up envs self) = _items self /\
  _selected_index (after_presses key_up envs self) =
    Some (Some (Z.max (s - Z.of_nat (List.length envs)) 0)).
Proof.
  induction envs as [|env rest IH]; intros s self NE S R.
  - cbn. rewrite S. split; [reflexivity|]. do 2 f_equal. lia.
  - rewrite after_presses_cons.
    destruct (setter_nonempty (s - 1) self NE) as (item & _ & E).
    rewrite (key_up_final_int env s self S), E. cbn [final].
    set (self' := set_field (Some (clamp (s - 1) 0 (len (_items self) - 1))) self).
    assert (R' : 0 <= clamp (s - 1) 0 (len (_items self) - 1)
                   <= len (_items self) - 1) by (apply clamp_range; lia).
    destruct (IH _ self' NE eq_refl R') as (A & B).
    split; [exact A|]. rewrite B.
    do 2 f_equal. rewrite clamp_max_min by lia. cbn [List.length]. lia.
Qed.

(** C5. On a list of [n > 0] items with the selection at 0, [n] presses of
    [key_down], each acting on what the press before left behind, end with
    the selection at [n - 1], and so does any longer run of presses: the
    cursor does not wrap. From [n - 1], [n] presses of [key_up] or more end
    with the selection at 0. This holds whatever surrounds the widget at
    each press, also when a handler raises after it has moved the
    selection; when every press finds a parent of non-zero content height,
    no press raises and the handlers run in sequence end the same way. *)
Theorem presses_saturate (c : widget_class) (l : list string)
    (envs more : list Env) :
  l <> [] ->
  List.length envs = List.length l ->
  let n := len l in
  let top := mkItemControl c l (Some (Some 0)) in
  let bottom := mkItemControl c l (Some (Some (n - 1))) in
  _selected_index (after_presses key_down envs top) = Some (Some (n - 1)) /\
  _selected_index (after_presses key_down (envs ++ more) top)
    = Some (Some (n - 1)) /\
  _selected_index (after_presses key_up envs bottom) = Some (Some 0) /\
  _selected_index (after_presses key_up (envs ++ more) bottom)
    = Some (Some 0) /\
  (forallb usable envs = true ->
   forallb usable more = true ->
   (result (presses key_down envs top) = Return tt /\
    _selected_index (final (presses key_down envs top)) = Some (Some (n - 1))) /\
   (result (presses key_down (envs ++ more) top) = Return tt /\
    _selected_index (final (presses key_down (envs ++ more) top))
      = Some (Some (n - 1))) /\
   (result (presses key_up envs bottom) = Return tt /\
    _selected_index (final (presses key_up envs bottom)) = Some (Some 0)) /\
   (result (presses key_up (envs ++ more) bottom) = Return tt /\
    _selected_index (final (presses key_up (envs ++ more) bottom))
      = Some (Some 0))).
Proof.
  intros NE LEN n top bottom.
  pose proof (is_empty_false_len l (is_empty_false l NE)) as L1. fold n in L1.
  assert (LE : Z.of_nat (List.length envs) = n) by (unfold n, len; lia).
  assert (LA : Z.of_nat (List.length (envs ++ more)) >= n)
    by (rewrite length_app; lia).
  destruct (after_presses_key_down envs 0 top NE eq_refl ltac:(cbn; lia))
    as (_ & P1).
  destruct (after_presses_key_down (envs ++ more) 0 top NE eq_refl
              ltac:(cbn; lia)) as (_ & P2).
  destruct (after_presses_key_up envs (n - 1) bottom NE eq_refl ltac:(cbn; lia))
    as (_ & P3).
  destruct (after_presses_key_up (envs ++ more) (n - 1) bottom NE eq_refl
              ltac:(cbn; lia)) as (_ & P4).
  cbn [top bottom _items] in P1, P2, P3, P4. fold n in P1, P2.
  split; [rewrite P1; do 2 f_equal; lia|].
  split; [rewrite P2; do 2 f_equal; lia|].
  split; [rewrite P3; do 2 f_equal; lia|].
  split; [rewrite P4; do 2 f_equal; lia|].
  intros U1 U2.
  assert (U : forallb usable (envs ++ more) = true)
    by (rewrite forallb_app, U1, U2; reflexivity).
  destruct (presses_key_down envs 0 top U1 NE eq_refl ltac:(cbn; lia))
    as (A1 & _ & A2).
  destruct (presses_key_down (envs ++ more) 0 top U NE eq_refl ltac:(cbn; lia))
    as (B1 & _ & B2).
  destruct (presses_key_up envs (n - 1) bottom U1 NE eq_refl ltac:(cbn; lia))
    as (C1 & _ & C2).
  destruct (presses_key_up (envs ++ more) (n - 1) bottom U NE eq_refl
              ltac:(cbn; lia)) as (D1 & _ & D2).
  cbn [top bottom _items] in A2, B2, C2, D2. fold n in A2, B2.
  repeat split; try assumption.
  - rewrite A2. f_equal. f_equal. lia.
  - rewrite B2. f_equal. f_equal. lia.
  - rewrite C2. f_equal. f_equal. lia.
  - rewrite D2. f_equal. f_equal. lia.
Qed.

Lemma presses_saturate_witness :
  let l := ["env1"; "env2.yaml"; "env3"] in
  let e := mkEnv (Some (mkViewport 2 0)) 2 in
  let detached := mkEnv None 0 in
  let flat := mkEnv (Some (mkViewport 0 0)) 0 in
  _selected_index
    (after_presses key_down [detached; e; flat]
       (mkItemControl EnvList l (Some (Some 0))))
    = Some (Some 2) /\
  _selected_index
    (after_presses key_up ([detached; e; flat] ++ [flat; e])
       (mkItemControl EnvList l (Some (Some 2))))
    = Some (Some 0) /\
  result (presses key_down ([e; e; e] ++ [e; e])
            (mkItemControl EnvList l (Some (Some 0)))) = Return tt /\
  _selected_index
    (final (presses key_down ([e; e; e] ++ [e; e])
              (mkItemControl EnvList l (Some (Some 0)))))
    = Some (Some 2).
Proof.
  cbv zeta.
  destruct (presses_saturate EnvList ["env1"; "env2.yaml"; "env3"]
              [mkEnv None 0; mkEnv (Some (mkViewport 2 0)) 2;
               mkEnv (Some (mkViewport 0 0)) 0]
              [mkEnv (Some (mkViewport 0 0)) 0; mkEnv (Some (mkViewport 2 0)) 2])
    as (A & _ & _ & D & _); [discriminate | reflexivity |].
  destruct (presses_saturate EnvList ["env1"; "env2.yaml"; "env3"]
              (let e := mkEnv (Some (mkViewport 2 0)) 2 in [e; e; e])
              (let e := mkEnv (Some (mkViewport 2 0)) 2 in [e; e]))
    as (_ & _ & _ & _ & U); [discriminate | reflexivity |].
  destruct (U eq_refl eq_refl) as (_ & (R & S) & _).
  split; [exact A|]. split; [exact D|]. split; [exact R | exact S].
Defined.

(** C6. Every operation keeps the state invariant of a mounted widget: if
    the selection is an index of the list when the list has items and
    [None] when it has none, the same holds after [add_items], after an
    assignment to [selected_index], after [key_down] and after [key_up],
    whether the handler returned or raised; and the mount handler
    establishes the invariant from any state. *)
Theorem operations_preserve_invariant (self : ItemControl) :
  invariant self = true ->
  (forall new_items, invariant (final (add_items new_items self)) = true) /\
  (forall new_value,
      invariant (final (selected_index_setter new_value self)) = true) /\
  (forall env, invariant (final (key_down env self)) = true) /\
  (forall env, invariant (final (key_up env self)) = true) /\
  (forall before, invariant (final (_on_mount before)) = true).
Proof.
  intros I. repeat split; intros.
  - apply add_items_invariant, I.
  - apply setter_invariant, I.
  - apply key_down_invariant, I.
  - apply key_up_invariant, I.
  - apply setter_some_invariant.
Qed.

Lemma operations_preserve_invariant_witness :
  let self := final (_on_mount (__init__ EnvList)) in
  invariant self = true /\
  invariant (final (add_items ["env1"; "env2.yaml"] self)) = true /\
  invariant (final (key_down (mkEnv None 0) self)) = true.
Proof.
  cbv zeta.
  assert (I : invariant (final (_on_mount (__init__ EnvList))) = true)
    by reflexivity.
  split; [exact I|].
  destruct (operations_preserve_invariant _ I) as (A & _ & D & _).
  split; [apply A | apply D].
Defined.

(** C7. [add_items] appends the given items after the ones already there,
    in order. If the items given are not empty and the selection was [None]
    before the call, the call returns normally, the selection becomes 0 and
    exactly one [ItemSelected] message is emitted, carrying the first item
    of the resulting list. *)
Theorem add_items_appends_and_selects (new_items : list string)
    (self : ItemControl) :
  _items (final (add_items new_items self)) = _items self ++ new_items /\
  (new_items <> [] ->
   _selected_index self = Some None ->
   exists first,
     hd_error (_items self ++ new_items) = Some first /\
     result (add_items new_items self) = Return tt /\
     _selected_index (final (add_items new_items self)) = Some (Some 0) /\
     notifications (trace (add_items new_items self))
       = [ItemSelected (cls self) first]).
Proof.
  split.
  - destruct (_selected_index self) as [[i|]|] eqn:S.
    + rewrite (add_items_run_some i new_items self S). reflexivity.
    + rewrite (add_items_run_none new_items self S).
      destruct (_items self ++ new_items) as [|x l] eqn:E.
      * rewrite setter_empty by exact E. cbn. exact E.
      * assert (NE : _items (extend new_items self) <> [])
          by (cbn [extend _items]; congruence).
        destruct (setter_nonempty 0 _ NE) as (item & _ & R). rewrite R.
        cbn. exact E.
    + rewrite (add_items_run_unset new_items self S). reflexivity.
  - intros NI S. rewrite (add_items_run_none new_items self S).
    assert (NE : _items (extend new_items self) <> []).
    { cbn [extend _items]. intros E. apply app_eq_nil in E. tauto. }
    destruct (setter_nonempty 0 _ NE) as (item & N & R). rewrite R.
    cbn [final trace result notifications set_field _selected_index].
    pose proof (is_empty_false_len _ (is_empty_false _ NE)) as L.
    rewrite clamp_max_min in N |- * by lia.
    replace (Z.max 0 (Z.min 0 (len (_items (extend new_items self)) - 1)))
      with 0 in N |- * by lia.
    cbn [extend _items cls] in N |- *. exists item. repeat split.
    destruct (_items self ++ new_items); [discriminate | exact N].
Qed.

Lemma add_items_appends_and_selects_witness :
  let self := final (_on_mount (__init__ EnvList)) in
  _items (final (add_items ["a"; "b"; "c"] self)) = ["a"; "b"; "c"] /\
  exists first,
    hd_error (_items self ++ ["a"; "b"; "c"]) = Some first /\
    result (add_items ["a"; "b"; "c"] self) = Return tt /\
    _selected_index (final (add_items ["a"; "b"; "c"] self)) = Some (Some 0) /\
    notifications (trace (add_items ["a"; "b"; "c"] self))
      = [ItemSelected EnvList first].
Proof.
  cbv zeta.
  destruct (add_items_appends_and_selects ["a"; "b"; "c"]
              (final (_on_mount (__init__ EnvList)))) as (A & B).
  split; [exact A|].
  apply B; [discriminate | reflexivity].
Defined.

(** C8. In every state the widget can reach, [add_items([])] leaves the
    item list and the selection as they were and emits no [ItemSelected]
    message. *)
Theorem add_items_nil_is_noop (self : ItemControl) :
  reachable self ->
  final (add_items [] self) = self /\
  notifications (trace (add_items [] self)) = [].
Proof.
  intros R. apply reachable_consistent in R.
  assert (X : extend [] self = self).
  { destruct self as [c l s]. unfold extend. cbn [cls _items _selected_index].
    rewrite app_nil_r. reflexivity. }
  unfold consistent, invariant in R.
  destruct (_selected_index self) as [[i|]|] eqn:S.
  - rewrite (add_items_run_some i [] self S), X. split; reflexivity.
  - rewrite (add_items_run_none [] self S), X.
    apply is_empty_true in R. rewrite (setter_empty 0 self R).
    cbn [final trace notifications]. split; [|reflexivity].
    destruct self as [c l s]. cbn in S. subst s. reflexivity.
  - rewrite (add_items_run_unset [] self S), X. split; reflexivity.
Qed.

Lemma add_items_nil_is_noop_witness :
  let self := final (exec (AddItems ["a"; "b"]) (final (exec Mount (__init__ EnvList)))) in
  final (add_items [] self) = self /\
  notifications (trace (add_items [] self)) = [].
Proof.
  cbv zeta. apply add_items_nil_is_noop.
  apply reachable_exec, reachable_exec, reachable_init.
Defined.

(** ** The subclasses *)

Lemma respects_ret {A : Type} (a : A) : respects (ret a).
Proof. intros c self. reflexivity. Qed.

Lemma respects_raise {A : Type} (e : exn) : respects (@raise A e).
Proof. intros c self. reflexivity. Qed.

Lemma respects_bind {A B : Type} (m : M A) (f : A -> M B) :
  respects m -> (forall a, respects (f a)) -> respects (bind m f).
Proof.
  intros Hm Hf c self. unfold bind. rewrite Hm.
  destruct (m self) as [s t [a|e]]; cbn [retag_run final trace result].
  - rewrite Hf. destruct (f a s) as [s' t' o].
    unfold retag_run. cbn [final trace result]. rewrite map_app. reflexivity.
  - reflexivity.
Qed.

Lemma respects_if {A : Type} (b : bool) (m k : M A) :
  respects m -> respects k -> respects (if b then m else k).
Proof. destruct b; auto. Qed.

Lemma respects_read_items : respects (read _items).
Proof. intros c self. reflexivity. Qed.

Lemma respects_read_selected_index : respects (read _selected_index).
Proof. intros c self. reflexivity. Qed.

Lemma respects_set_field v : respects (update (set_field v)).
Proof. intros c self. reflexivity. Qed.

Lemma respects_extend l : respects (update (extend l)).
Proof. intros c self. reflexivity. Qed.

Lemma respects_getitem l i : respects (getitem l i).
Proof.
  intros c self. unfold getitem.
  destruct ((if i <? 0 then len l + i else i) <? 0); [reflexivity|].
  destruct (nth_error l (Z.to_nat (if i <? 0 then len l + i else i)));
    reflexivity.
Qed.

(** The one place where the class is read: the message is built from the
    nested class of the instance. *)
Lemma respects_emit_item_selected item :
  respects (owner <- read cls ;; perform (Emit (ItemSelected owner item))).
Proof. intros c self. reflexivity. Qed.

Lemma respects_perform e :
  (forall c, retag c e = e) -> respects (perform e).
Proof.
  intros H c self. unfold perform, retag_run. cbn [final trace result map].
  rewrite H. reflexivity.
Qed.

Lemma respects_py_add a b : respects (py_add a b).
Proof. destruct a; intros c self; reflexivity. Qed.

Lemma respects_py_sub a b : respects (py_sub a b).
Proof. destruct a; intros c self; reflexivity. Qed.

Lemma respects_py_mod a b : respects (py_mod a b).
Proof. unfold py_mod. destruct (b =? 0); intros c self; reflexivity. Qed.

Lemma respects_parent_scroll_offset_y env : respects (parent_scroll_offset_y env).
Proof.
  unfold parent_scroll_offset_y. destruct (parent env); intros c self; reflexivity.
Qed.

Create HintDb subclass.
#[local] Hint Resolve respects_ret respects_raise respects_if
  respects_read_items respects_read_selected_index respects_set_field
  respects_extend respects_getitem respects_emit_item_selected
  respects_py_add respects_py_sub respects_py_mod
  respects_parent_scroll_offset_y : subclass.
#[local] Hint Extern 1 (respects (perform _)) =>
  (apply respects_perform; intros; reflexivity) : subclass.

Ltac subclass :=
  first [ solve [auto with subclass]
        | apply respects_bind; [subclass | intros; subclass]
        | match goal with
          | |- respects (match ?x with _ => _ end) => destruct x; subclass
          end ].

Lemma respects_selected_index : respects selected_index.
Proof. unfold selected_index. subclass. Qed.

Lemma respects_clamp_index v : respects (_clamp_index v).
Proof. unfold _clamp_index. subclass. Qed.

#[local] Hint Resolve respects_selected_index respects_clamp_index : subclass.

Lemma respects_setter v : respects (selected_index_setter v).
Proof. unfold selected_index_setter. subclass. Qed.

#[local] Hint Resolve respects_setter : subclass.

Lemma respects_add_items l : respects (add_items l).
Proof. unfold add_items. subclass. Qed.

Lemma respects_key_down env : respects (key_down env).
Proof. unfold key_down. cbv zeta. subclass. Qed.

Lemma respects_key_up env : respects (key_up env).
Proof. unfold key_up. cbv zeta. subclass. Qed.

Lemma respects_render : respects render.
Proof. unfold render. subclass. Qed.

Lemma respects_render_rows : respects render_rows.
Proof.
  unfold render_rows. apply respects_bind; [apply respects_render|].
  intros r. apply respects_ret.
Qed.

Lemma respects_exec o : respects (exec o).
Proof.
  destruct o; cbn [exec].
  - apply respects_setter.
  - apply respects_add_items.
  - apply respects_setter.
  - apply respects_key_down.
  - apply respects_key_up.
Qed.

Lemma respects_script ops : respects (script ops).
Proof.
  induction ops as [|o rest IH]; cbn [script].
  - apply respects_ret.
  - apply respects_bind; [apply respects_exec | intros _; exact IH].
Qed.

Lemma notifications_retag c t :
  notifications (map (retag c) t) = map (ItemSelected c) (labels t).
Proof.
  induction t as [|e t IH]; [reflexivity|].
  destruct e as [|[o item]| | | | |]; cbn [map retag notifications labels];
    rewrite IH; reflexivity.
Qed.

Lemma scroll_requests_retag c t :
  scroll_requests (map (retag c) t) = scroll_requests t.
Proof.
  unfold scroll_requests.
  induction t as [|e t IH]; [reflexivity|].
  destruct e as [|[o item]| | | | |]; cbn [map retag filter is_scroll];
    rewrite IH; reflexivity.
Qed.

(** C9. [EnvList], [ProfileList] and [ItemControl] behave alike: started
    with the same list and selection and given the same events, two
    instances of any two of these classes end with the same item list and
    selection, the same outcome, the same scroll requests and the same
    effects one by one, up to the tag of the [ItemSelected] messages, which
    is the class of the emitting instance; the messages carry the same
    labels. What [render] returns, the rows drawn from it and the content
    height are the same too. *)
Theorem subclasses_differ_only_in_tag (c1 c2 : widget_class)
    (l : list string) (sel : option (option Z)) (ops : list op)
    (container_height : Z) :
  let r1 := script ops (mkItemControl c1 l sel) in
  let r2 := script ops (mkItemControl c2 l sel) in
  _items (final r2) = _items (final r1) /\
  _selected_index (final r2) = _selected_index (final r1) /\
  result r2 = result r1 /\
  scroll_requests (trace r2) = scroll_requests (trace r1) /\
  trace r2 = map (retag c2) (trace r1) /\
  labels (trace r2) = labels (trace r1) /\
  notifications (trace r1) = map (ItemSelected c1) (labels (trace r1)) /\
  notifications (trace r2) = map (ItemSelected c2) (labels (trace r2)) /\
  result (render (final r2)) = result (render (final r1)) /\
  result (render_rows (final r2)) = result (render_rows (final r1)) /\
  get_content_height container_height (final r2)
    = get_content_height container_height (final r1).
Proof.
  intros r1 r2.
  assert (E2 : r2 = retag_run c2 r1)
    by (apply (respects_script ops c2 (mkItemControl c1 l sel))).
  assert (E1 : r1 = retag_run c1 r1).
  { pose proof (respects_script ops c1 (mkItemControl c1 l sel)) as H.
    exact H. }
  assert (T1 : trace r1 = map (retag c1) (trace r1))
    by (rewrite E1 at 1; reflexivity).
  assert (N1 : notifications (trace r1) = map (ItemSelected c1) (labels (trace r1)))
    by (rewrite T1 at 1; apply notifications_retag).
  assert (N2 : notifications (trace r2) = map (ItemSelected c2) (labels (trace r1)))
    by (rewrite E2; apply notifications_retag).
  assert (L : labels (trace r2) = labels (trace r1)).
  { rewrite E2. cbn [retag_run trace]. clear.
    induction (trace r1) as [|e t IH]; [reflexivity|].
    destruct e as [|[o item]| | | | |]; cbn [map retag labels];
      rewrite ?IH; reflexivity. }
  repeat split.
  - rewrite E2. reflexivity.
  - rewrite E2. reflexivity.
  - rewrite E2. reflexivity.
  - rewrite E2. apply scroll_requests_retag.
  - rewrite E2. reflexivity.
  - exact L.
  - exact N1.
  - rewrite L. exact N2.
  - rewrite E2. cbn [retag_run final]. rewrite respects_render. reflexivity.
  - rewrite E2. cbn [retag_run final]. rewrite respects_render_rows.
    reflexivity.
  - rewrite E2. reflexivity.
Qed.

(** C10. On a freshly constructed widget the attribute behind
    [selected_index] does not exist: reading the property raises
    [AttributeError], and so does [add_items], which has by then appended
    the items but emits nothing and leaves the selection without a value.
    The mount handler creates the attribute, after which the property can
    be read. *)
Theorem selected_index_unset_before_mount (c : widget_class)
    (new_items : list string) :
  selected_index (__init__ c) = mkRun (__init__ c) [] (Raise AttributeError) /\
  add_items new_items (__init__ c)
    = mkRun (mkItemControl c new_items None) [] (Raise AttributeError) /\
  result (selected_index (final (_on_mount (__init__ c)))) = Return None.
Proof. repeat split. Qed.

(** * Further properties of the widget *)

(** ** The key handlers in every state *)

Lemma key_down_unset env self :
  _selected_index self = None ->
  key_down env self = mkRun self [EventStop] (Raise AttributeError).
Proof.
  intros S. unfold key_down. step_bind. rewrite S. reflexivity.
Qed.

Lemma key_up_unset env self :
  _selected_index self = None ->
  key_up env self = mkRun self [EventStop] (Raise AttributeError).
Proof.
  intros S. unfold key_up. step_bind. rewrite S. reflexivity.
Qed.

Lemma key_down_none env self :
  _selected_index self = Some None ->
  key_down env self = mkRun self [EventStop] (Raise TypeError).
Proof.
  intros S. unfold key_down. step_bind. rewrite S. reflexivity.
Qed.

Lemma key_up_none env self :
  _selected_index self = Some None ->
  key_up env self = mkRun self [EventStop] (Raise TypeError).
Proof.
  intros S. unfold key_up. step_bind. rewrite S. reflexivity.
Qed.

(** An integer selection over an empty list: the setter stores [None], and
    the arithmetic on it fails, unless the missing parent fails first. *)
Lemma key_down_int_empty env s self :
  _selected_index self = Some (Some s) ->
  _items self = [] ->
  key_down env self =
    mkRun (set_field None self) [EventStop; Refresh true]
          (Raise (if has_parent env then TypeError else AttributeError)).
Proof.
  intros S E. pose proof (setter_empty (s + 1) self E) as R.
  unfold key_down. step_bind. rewrite S. cbn beta iota. rewrite R. simpl.
  destruct (parent env); reflexivity.
Qed.

Lemma key_up_int_empty env s self :
  _selected_index self = Some (Some s) ->
  _items self = [] ->
  key_up env self =
    mkRun (set_field None self) [EventStop; Refresh true] (Raise TypeError).
Proof.
  intros S E. pose proof (setter_empty (s - 1) self E) as R.
  unfold key_up. step_bind. rewrite S. cbn beta iota. rewrite R. reflexivity.
Qed.

(** No parent: the selection moves and the message goes out, then
    [self.parent.scroll_offset] fails. *)
Lemma key_down_detached env s self :
  _items self <> [] ->
  _selected_index self = Some (Some s) ->
  parent env = None ->
  let idx := clamp (s + 1) 0 (len (_items self) - 1) in
  exists item,
    nth_error (_items self) (Z.to_nat idx) = Some item /\
    key_down env self =
      mkRun (set_field (Some idx) self)
            [EventStop; Emit (ItemSelected (cls self) item); Refresh true]
            (Raise AttributeError).
Proof.
  intros NE S P. cbv zeta.
  destruct (setter_nonempty (s + 1) self NE) as (item & N & E).
  exists item. split; [exact N|].
  unfold key_down. step_bind. rewrite S. cbn beta iota.
  rewrite E. simpl. rewrite P. reflexivity.
Qed.

Lemma key_up_detached env s self :
  _items self <> [] ->
  _selected_index self = Some (Some s) ->
  parent env = None ->
  let idx := clamp (s - 1) 0 (len (_items self) - 1) in
  exists item,
    nth_error (_items self) (Z.to_nat idx) = Some item /\
    key_up env self =
      mkRun (set_field (Some idx) self)
            [EventStop; Emit (ItemSelected (cls self) item); Refresh true]
            (Raise AttributeError).
Proof.
  intros NE S P. cbv zeta.
  destruct (setter_nonempty (s - 1) self NE) as (item & N & E).
  exists item. split; [exact N|].
  unfold key_up. step_bind. rewrite S. cbn beta iota.
  rewrite E. simpl. rewrite P. reflexivity.
Qed.

(** A parent whose content height is zero: the modulo fails. *)
Lemma key_down_zero_height env p s self :
  _items self <> [] ->
  _selected_index self = Some (Some s) ->
  parent env = Some p ->
  content_size_height p = 0 ->
  let idx := clamp (s + 1) 0 (len (_items self) - 1) in
  exists item,
    nth_error (_items self) (Z.to_nat idx) = Some item /\
    key_down env self =
      mkRun (set_field (Some idx) self)
            [EventStop; Emit (ItemSelected (cls self) item); Refresh true]
            (Raise ZeroDivisionError).
Proof.
  intros NE S P H. cbv zeta.
  destruct (setter_nonempty (s + 1) self NE) as (item & N & E).
  exists item. split; [exact N|].
  unfold key_down. step_bind. rewrite S. cbn beta iota.
  rewrite E. simpl. rewrite P. simpl. rewrite H. reflexivity.
Qed.

Lemma key_up_zero_height env p s self :
  _items self <> [] ->
  _selected_index self = Some (Some s) ->
  parent env = Some p ->
  content_size_height p = 0 ->
  let idx := clamp (s - 1) 0 (len (_items self) - 1) in
  exists item,
    nth_error (_items self) (Z.to_nat idx) = Some item /\
    key_up env self =
      mkRun (set_field (Some idx) self)
            [EventStop; Emit (ItemSelected (cls self) item); Refresh true]
            (Raise ZeroDivisionError).
Proof.
  intros NE S P H. cbv zeta.
  destruct (setter_nonempty (s - 1) self NE) as (item & N & E).
  exists item. split; [exact N|].
  unfold key_up. step_bind. rewrite S. cbn beta iota.
  rewrite E. simpl. rewrite P. simpl. rewrite H. reflexivity.
Qed.

(** ** Traces *)

Lemma notifications_app t u :
  notifications (t ++ u) = notifications t ++ notifications u.
Proof.
  induction t as [|e t IH]; [reflexivity|].
  destruct e; cbn [app notifications]; rewrite IH; reflexivity.
Qed.

Lemma scroll_requests_app t u :
  scroll_requests (t ++ u) = scroll_requests t ++ scroll_requests u.
Proof. apply filter_app. Qed.

(** ** The setter, whatever the state *)

(** X1. An assignment to [selected_index] never raises: the lookup
    [self._items[self._selected_index]] is always in range. It leaves the
    item list and the class alone, its last effect is the layout refresh,
    and it emits a message exactly when the value assigned is an integer and
    the list has items; an integer assigned over an empty list stores
    [None]. *)
Theorem setter_total (new_value : option Z) (self : ItemControl) :
  let r := selected_index_setter new_value self in
  result r = Return tt /\
  _items (final r) = _items self /\
  cls (final r) = cls self /\
  (exists t, trace r = t ++ [Refresh true]) /\
  (notifications (trace r) <> [] <-> new_value <> None /\ _items self <> []) /\
  (new_value <> None -> _items self = [] ->
   _selected_index (final r) = Some None).
Proof.
  cbv zeta. destruct new_value as [v|].
  - destruct (_items self) as [|x l] eqn:E.
    + rewrite (setter_empty v self E). cbn [final trace result set_field
        _items cls _selected_index notifications].
      repeat split; try (intros; congruence);
        try (exists []; reflexivity).
      intros [_ H]. congruence.
    + assert (NE : _items self <> []) by congruence.
      destruct (setter_nonempty v self NE) as (item & _ & R). rewrite R.
      cbn [final trace result set_field _items cls notifications].
      repeat split; try (intros; congruence);
        try (exists [Emit (ItemSelected (cls self) item)]; reflexivity).
  - rewrite setter_none. cbn [final trace result notifications].
    repeat split; try (intros; congruence);
      try (exists []; reflexivity).
    intros [H _]. congruence.
Qed.

(** ** When a key handler returns, and what it raises *)

(** X2. A key handler returns normally exactly when the selection is an
    integer, the list has items and the widget has a parent whose content
    height is not zero; in every other state it raises. *)
Theorem key_handlers_return_iff (env : Env) (self : ItemControl) :
  (result (key_down env self) = Return tt <->
   (exists s, _selected_index self = Some (Some s)) /\
   _items self <> [] /\ usable env = true) /\
  (result (key_up env self) = Return tt <->
   (exists s, _selected_index self = Some (Some s)) /\
   _items self <> [] /\ usable env = true).
Proof.
  destruct (_selected_index self) as [[s|]|] eqn:S.
  - destruct (_items self) as [|x l] eqn:E.
    + rewrite (key_down_int_empty env s self S E),
        (key_up_int_empty env s self S E). cbn [result].
      split; (split; [destruct (has_parent env); discriminate
                     | intros (_ & H & _); congruence]).
    + assert (NE : _items self <> []) by congruence.
      destruct (usable env) eqn:U.
      * destruct (usable_parent env U) as (p & P & H).
        destruct (key_down_run env p s self NE S P H) as (i1 & _ & D).
        destruct (key_up_run env p s self NE S P H) as (i2 & _ & K).
        rewrite D, K. cbn [result].
        split; (split; [intros _|reflexivity]);
          (split; [exists s; reflexivity | split; [congruence | reflexivity]]).
      * unfold usable in U. destruct (parent env) as [p|] eqn:P.
        -- apply negb_false_iff, Z.eqb_eq in U.
           destruct (key_down_zero_height env p s self NE S P U) as (i1 & _ & D).
           destruct (key_up_zero_height env p s self NE S P U) as (i2 & _ & K).
           rewrite D, K. cbn [result].
           split; (split; [discriminate | intros (_ & _ & H); discriminate]).
        -- destruct (key_down_detached env s self NE S P) as (i1 & _ & D).
           destruct (key_up_detached env s self NE S P) as (i2 & _ & K).
           rewrite D, K. cbn [result].
           split; (split; [discriminate | intros (_ & _ & H); discriminate]).
  - rewrite (key_down_none env self S), (key_up_none env self S). cbn [result].
    split; (split; [discriminate | intros ((s & H) & _); discriminate]).
  - rewrite (key_down_unset env self S), (key_up_unset env self S). cbn [result].
    split; (split; [discriminate | intros ((s & H) & _); discriminate]).
Qed.

(** The selection and the message of a key press do not depend on the
    surroundings. *)
Lemma key_press_effect (env : Env) (s : Z) (self : ItemControl) :
  _items self <> [] ->
  _selected_index self = Some (Some s) ->
  let down := clamp (s + 1) 0 (len (_items self) - 1) in
  let up := clamp (s - 1) 0 (len (_items self) - 1) in
  (exists item,
      nth_error (_items self) (Z.to_nat down) = Some item /\
      final (key_down env self) = set_field (Some down) self /\
      notifications (trace (key_down env self))
        = [ItemSelected (cls self) item]) /\
  (exists item,
      nth_error (_items self) (Z.to_nat up) = Some item /\
      final (key_up env self) = set_field (Some up) self /\
      notifications (trace (key_up env self))
        = [ItemSelected (cls self) item]).
Proof.
  intros NE S down up.
  destruct (parent env) as [p|] eqn:P.
  - destruct (Z.eq_dec (content_size_height p) 0) as [H|H].
    + destruct (key_down_zero_height env p s self NE S P H) as (i1 & N1 & D).
      destruct (key_up_zero_height env p s self NE S P H) as (i2 & N2 & K).
      rewrite D, K. split; [exists i1 | exists i2]; repeat split; assumption.
    + destruct (key_down_run env p s self NE S P H) as (i1 & N1 & D).
      destruct (key_up_run env p s self NE S P H) as (i2 & N2 & K).
      rewrite D, K. cbn [final trace].
      split; [exists i1 | exists i2]; (split; [assumption|]);
        (split; [reflexivity|]); rewrite !notifications_app.
      * match goal with
        | |- context [if ?c then _ else _] => destruct c
        end; reflexivity.
      * match goal with
        | |- context [if ?c then _ else _] => destruct c
        end; reflexivity.
  - destruct (key_down_detached env s self NE S P) as (i1 & N1 & D).
    destruct (key_up_detached env s self NE S P) as (i2 & N2 & K).
    rewrite D, K. split; [exists i1 | exists i2]; repeat split; assumption.
Qed.

(** X3. On a list with items and an integer selection, a key press moves
    the selection to the clamped neighbour and emits exactly one message,
    for the item now selected, whatever surrounds the widget: both happen
    before the handler looks at its parent, so also when it then raises. *)
Theorem key_press_moves_and_notifies (env : Env) (s : Z) (self : ItemControl) :
  _items self <> [] ->
  _selected_index self = Some (Some s) ->
  let down := clamp (s + 1) 0 (len (_items self) - 1) in
  let up := clamp (s - 1) 0 (len (_items self) - 1) in
  (exists item,
      nth_error (_items self) (Z.to_nat down) = Some item /\
      final (key_down env self) = set_field (Some down) self /\
      notifications (trace (key_down env self))
        = [ItemSelected (cls self) item]) /\
  (exists item,
      nth_error (_items self) (Z.to_nat up) = Some item /\
      final (key_up env self) = set_field (Some up) self /\
      notifications (trace (key_up env self))
        = [ItemSelected (cls self) item]).
Proof. exact (key_press_effect env s self). Qed.

Lemma key_press_moves_and_notifies_witness :
  let self := mkItemControl EnvList ["a"; "b"; "c"] (Some (Some 1)) in
  final (key_down (mkEnv None 0) self)
    = mkItemControl EnvList ["a"; "b"; "c"] (Some (Some 2)) /\
  notifications (trace (key_down (mkEnv None 0) self))
    = [ItemSelected EnvList "c"].
Proof.
  cbv zeta.
  destruct (key_press_moves_and_notifies (mkEnv None 0) 1
              (mkItemControl EnvList ["a"; "b"; "c"] (Some (Some 1))))
    as ((item & N & F & T) & _).
  - discriminate.
  - reflexivity.
  - split; [exact F|]. rewrite T. cbn in N. injection N as <-. reflexivity.
Defined.

(** X4. What a key handler raises when the widget, with items and an
    integer selection, has nothing usable around it: [AttributeError] when
    it has no parent (the guard [and self.parent] comes after
    [self.parent.scroll_offset] has been read), [ZeroDivisionError] when the
    parent's content height is zero. No scroll request is issued. *)
Theorem key_press_without_viewport (env : Env) (s : Z) (self : ItemControl) :
  _items self <> [] ->
  _selected_index self = Some (Some s) ->
  usable env = false ->
  let e := if has_parent env then ZeroDivisionError else AttributeError in
  result (key_down env self) = Raise e /\
  result (key_up env self) = Raise e /\
  scroll_requests (trace (key_down env self)) = [] /\
  scroll_requests (trace (key_up env self)) = [].
Proof.
  intros NE S U. unfold usable in U. unfold has_parent.
  destruct (parent env) as [p|] eqn:P; cbv zeta.
  - apply negb_false_iff, Z.eqb_eq in U.
    destruct (key_down_zero_height env p s self NE S P U) as (i1 & _ & D).
    destruct (key_up_zero_height env p s self NE S P U) as (i2 & _ & K).
    rewrite D, K. repeat split.
  - destruct (key_down_detached env s self NE S P) as (i1 & _ & D).
    destruct (key_up_detached env s self NE S P) as (i2 & _ & K).
    rewrite D, K. repeat split.
Qed.

Lemma key_press_without_viewport_witness :
  let self := mkItemControl ProfileList ["p"; "q"] (Some (Some 0)) in
  result (key_down (mkEnv None 4) self) = Raise AttributeError /\
  result (key_up (mkEnv (Some (mkViewport 0 0)) 4) self) = Raise ZeroDivisionError.
Proof.
  cbv zeta. split.
  - apply (key_press_without_viewport (mkEnv None 4) 0
             (mkItemControl ProfileList ["p"; "q"] (Some (Some 0))));
      [discriminate | reflexivity | reflexivity].
  - apply (key_press_without_viewport (mkEnv (Some (mkViewport 0 0)) 4) 0
             (mkItemControl ProfileList ["p"; "q"] (Some (Some 0))));
      [discriminate | reflexivity | reflexivity].
Defined.

(** ** Scroll requests *)

(** X5. In every state and whatever surrounds the widget, a key handler
    first stops the event, [key_down] never asks to scroll up and [key_up]
    never asks to scroll down, a handler issues at most one scroll request
    and never an animated one. *)
Theorem key_handlers_scroll_discipline (env : Env) (self : ItemControl) :
  (exists t, trace (key_down env self) = EventStop :: t) /\
  (exists t, trace (key_up env self) = EventStop :: t) /\
  (scroll_requests (trace (key_down env self)) = [] \/
   scroll_requests (trace (key_down env self)) = [ScrollDown false]) /\
  (scroll_requests (trace (key_up env self)) = [] \/
   scroll_requests (trace (key_up env self)) = [ScrollUp false]).
Proof.
  destruct (_selected_index self) as [[s|]|] eqn:S.
  - destruct (_items self) as [|x l] eqn:E.
    + rewrite (key_down_int_empty env s self S E),
        (key_up_int_empty env s self S E). cbn [trace].
      repeat split; try (eexists; reflexivity); left; reflexivity.
    + assert (NE : _items self <> []) by congruence.
      destruct (parent env) as [p|] eqn:P.
      * destruct (Z.eq_dec (content_size_height p) 0) as [H|H].
        -- destruct (key_down_zero_height env p s self NE S P H) as (i1 & _ & D).
           destruct (key_up_zero_height env p s self NE S P H) as (i2 & _ & K).
           rewrite D, K. cbn [trace].
           repeat split; try (eexists; reflexivity); left; reflexivity.
        -- destruct (key_down_run env p s self NE S P H) as (i1 & _ & D).
           destruct (key_up_run env p s self NE S P H) as (i2 & _ & K).
           rewrite D, K. cbn [trace].
           repeat split; try (eexists; reflexivity);
             rewrite !scroll_requests_app;
             match goal with
             | |- context [if ?c then _ else _] => destruct c
             end; [right | left | right | left]; reflexivity.
      * destruct (key_down_detached env s self NE S P) as (i1 & _ & D).
        destruct (key_up_detached env s self NE S P) as (i2 & _ & K).
        rewrite D, K. cbn [trace].
        repeat split; try (eexists; reflexivity); left; reflexivity.
  - rewrite (key_down_none env self S), (key_up_none env self S). cbn [trace].
    repeat split; try (eexists; reflexivity); left; reflexivity.
  - rewrite (key_down_unset env self S), (key_up_unset env self S). cbn [trace].
    repeat split; try (eexists; reflexivity); left; reflexivity.
Qed.

(** X6. At the ends of the list a key press does not move the selection
    but still emits a message: [key_down] on the last item notifies the last
    item again and [key_up] on the first item notifies the first item
    again, whatever surrounds the widget. *)
Theorem key_press_at_the_ends (c : widget_class) (l : list string) (env : Env) :
  l <> [] ->
  let at_last := mkItemControl c l (Some (Some (len l - 1))) in
  let at_first := mkItemControl c l (Some (Some 0)) in
  (final (key_down env at_last) = at_last /\
   exists item, nth_error l (Z.to_nat (len l - 1)) = Some item /\
     notifications (trace (key_down env at_last)) = [ItemSelected c item]) /\
  (final (key_up env at_first) = at_first /\
   exists item, hd_error l = Some item /\
     notifications (trace (key_up env at_first)) = [ItemSelected c item]).
Proof.
  intros NE at_last at_first.
  pose proof (is_empty_false_len l (is_empty_false l NE)) as L.
  destruct (key_press_effect env (len l - 1) at_last NE eq_refl)
    as ((i1 & N1 & F1 & T1) & _).
  destruct (key_press_effect env 0 at_first NE eq_refl)
    as (_ & (i2 & N2 & F2 & T2)).
  cbn [at_last at_first _items cls] in N1, F1, T1, N2, F2, T2.
  rewrite clamp_max_min in N1, F1, N2, F2 by lia.
  replace (Z.max 0 (Z.min (len l - 1 + 1) (len l - 1))) with (len l - 1)
    in N1, F1 by lia.
  replace (Z.max 0 (Z.min (0 - 1) (len l - 1))) with 0 in N2, F2 by lia.
  split; (split; [assumption|]).
  - exists i1. split; assumption.
  - exists i2. split; [|assumption]. destruct l; [congruence | exact N2].
Qed.

Lemma key_press_at_the_ends_witness :
  let at_last := mkItemControl EnvList ["a"; "b"] (Some (Some 1)) in
  final (key_down (mkEnv (Some (mkViewport 4 0)) 4) at_last) = at_last /\
  notifications (trace (key_down (mkEnv (Some (mkViewport 4 0)) 4) at_last))
    = [ItemSelected EnvList "b"].
Proof.
  cbv zeta.
  destruct (key_press_at_the_ends EnvList ["a"; "b"]
              (mkEnv (Some (mkViewport 4 0)) 4)) as ((F & item & N & T) & _).
  - discriminate.
  - split; [exact F|]. refine (eq_trans T _).
    cbn in N. injection N as <-. reflexivity.
Defined.

Lemma setter_total_witness :
  let r := selected_index_setter (Some 3) (mkItemControl EnvList [] None) in
  result r = Return tt /\ _selected_index (final r) = Some None.
Proof.
  cbv zeta.
  destruct (setter_total (Some 3) (mkItemControl EnvList [] None))
    as (R & _ & _ & _ & _ & S).
  split; [exact R|]. apply S; [discriminate | reflexivity].
Defined.

(** ** The item list only grows *)

Lemma setter_returns v self :
  result (selected_index_setter v self) = Return tt.
Proof.
  destruct v as [v|]; [|reflexivity].
  destruct (_items self) as [|x l] eqn:E.
  - rewrite (setter_empty v self E). reflexivity.
  - assert (NE : _items self <> []) by congruence.
    destruct (setter_nonempty v self NE) as (item & _ & R). rewrite R.
    reflexivity.
Qed.

Lemma setter_items v self :
  _items (final (selected_index_setter v self)) = _items self /\
  cls (final (selected_index_setter v self)) = cls self.
Proof.
  destruct v as [v|]; [|rewrite setter_none; split; reflexivity].
  destruct (_items self) as [|x l] eqn:E.
  - rewrite (setter_empty v self E). cbn [final set_field _items cls].
    split; [exact E | reflexivity].
  - assert (NE : _items self <> []) by congruence.
    destruct (setter_nonempty v self NE) as (item & _ & R). rewrite R.
    split; [exact E | reflexivity].
Qed.

Lemma exec_items o self :
  _items (final (exec o self)) = _items self ++ added_by o /\
  cls (final (exec o self)) = cls self.
Proof.
  destruct o as [|l|v|env|env]; cbn [exec added_by]; rewrite ?app_nil_r.
  - apply setter_items.
  - destruct (_selected_index self) as [[i|]|] eqn:S.
    + rewrite (add_items_run_some i l self S). split; reflexivity.
    + rewrite (add_items_run_none l self S).
      apply (setter_items (Some 0) (extend l self)).
    + rewrite (add_items_run_unset l self S). split; reflexivity.
  - apply setter_items.
  - destruct (key_down_final env self) as [E|(s & _ & E)]; rewrite E.
    + split; reflexivity.
    + apply setter_items.
  - destruct (key_up_final env self) as [E|(s & _ & E)]; rewrite E.
    + split; reflexivity.
    + apply setter_items.
Qed.

(** How a script runs: the first event, then the rest if it returned. *)
Lemma script_cons o rest self :
  script (o :: rest) self =
    match result (exec o self) with
    | Return _ =>
        mkRun (final (script rest (final (exec o self))))
              (trace (exec o self) ++ trace (script rest (final (exec o self))))
              (result (script rest (final (exec o self))))
    | Raise e => mkRun (final (exec o self)) (trace (exec o self)) (Raise e)
    end.
Proof.
  cbn [script]. destruct (exec o self) as [s t [[]|e]] eqn:R.
  - rewrite (bind_return _ _ _ _ _ _ R). reflexivity.
  - rewrite (bind_raise _ _ _ _ _ _ R). reflexivity.
Qed.

(** X7. Nothing removes or reorders items: after any event, returned or
    raised, the list is the old list followed by the items the event added,
    which are none unless the event is a load; the class never changes. A
    script therefore leaves the old list followed by what the events it got
    through added, all of them when it returns. *)
Theorem item_list_append_only (ops : list op) (self : ItemControl) :
  (forall o, _items (final (exec o self)) = _items self ++ added_by o /\
             cls (final (exec o self)) = cls self) /\
  (exists k, (k <= List.length ops)%nat /\
     _items (final (script ops self))
       = _items self ++ List.concat (map added_by (firstn k ops))) /\
  cls (final (script ops self)) = cls self /\
  (result (script ops self) = Return tt ->
   _items (final (script ops self)) = _items self ++ List.concat (map added_by ops)).
Proof.
  split; [intros o; apply exec_items|].
  revert self. induction ops as [|o rest IH]; intros self.
  - cbn. split; [exists 0%nat; split; [lia | rewrite app_nil_r; reflexivity]|].
    split; [reflexivity|]. intros _. rewrite app_nil_r. reflexivity.
  - rewrite script_cons. destruct (exec_items o self) as (I & C).
    destruct (result (exec o self)) as [[]|e]; cbn [final result].
    + destruct (IH (final (exec o self))) as ((k & K & E) & C' & F).
      split; [|split].
      * exists (S k). split; [cbn; lia|].
        rewrite E, I. cbn [firstn map List.concat]. rewrite app_assoc. reflexivity.
      * rewrite C'. exact C.
      * intros R. rewrite (F R), I. cbn [map List.concat].
        rewrite app_assoc. reflexivity.
    + split; [|split].
      * exists 1%nat. split; [cbn; lia|].
        rewrite I. cbn [firstn map List.concat]. rewrite app_nil_r. reflexivity.
      * exact C.
      * discriminate.
Qed.

Lemma item_list_append_only_witness :
  let env := mkEnv (Some (mkViewport 3 0)) 3 in
  let ops := [Mount; AddItems ["a"]; KeyDown env; AddItems ["b"; "c"]] in
  _items (final (script ops (__init__ EnvList))) = ["a"; "b"; "c"].
Proof.
  cbv zeta.
  destruct (item_list_append_only
              [Mount; AddItems ["a"]; KeyDown (mkEnv (Some (mkViewport 3 0)) 3);
               AddItems ["b"; "c"]] (__init__ EnvList)) as (_ & _ & _ & F).
  apply F. reflexivity.
Defined.

(** ** What the messages carry *)

Lemma names_item_grows c l k m : names_item c l m -> names_item c (l ++ k) m.
Proof.
  intros (item & E & I). exists item. split; [exact E|].
  apply in_or_app. left. exact I.
Qed.

Lemma setter_names_items v self :
  Forall (names_item (cls self) (_items self))
         (notifications (trace (selected_index_setter v self))).
Proof.
  destruct v as [v|]; [|rewrite setter_none; constructor].
  destruct (_items self) as [|x l] eqn:E.
  - rewrite (setter_empty v self E). constructor.
  - assert (NE : _items self <> []) by congruence.
    destruct (setter_nonempty v self NE) as (item & N & R). rewrite R.
    cbn [trace notifications]. constructor; [|constructor].
    exists item. split; [reflexivity|]. rewrite <- E.
    apply nth_error_In in N. exact N.
Qed.

Lemma exec_names_items o self :
  Forall (names_item (cls self) (_items (final (exec o self))))
         (notifications (trace (exec o self))).
Proof.
  destruct (exec_items o self) as (I & _). rewrite I.
  destruct o as [|l|v|env|env]; cbn [exec added_by]; rewrite ?app_nil_r.
  - apply setter_names_items.
  - destruct (_selected_index self) as [[i|]|] eqn:S.
    + rewrite (add_items_run_some i l self S). constructor.
    + rewrite (add_items_run_none l self S).
      apply (setter_names_items (Some 0) (extend l self)).
    + rewrite (add_items_run_unset l self S). constructor.
  - apply setter_names_items.
  - destruct (_selected_index self) as [[s|]|] eqn:S.
    + destruct (_items self) as [|x l] eqn:E.
      * rewrite (key_down_int_empty env s self S E). constructor.
      * assert (NE : _items self <> []) by congruence.
        destruct (key_press_effect env s self NE S)
          as ((item & N & _ & T) & _).
        rewrite T. constructor; [|constructor].
        exists item. split; [reflexivity|]. rewrite <- E.
        apply nth_error_In in N. exact N.
    + rewrite (key_down_none env self S). constructor.
    + rewrite (key_down_unset env self S). constructor.
  - destruct (_selected_index self) as [[s|]|] eqn:S.
    + destruct (_items self) as [|x l] eqn:E.
      * rewrite (key_up_int_empty env s self S E). constructor.
      * assert (NE : _items self <> []) by congruence.
        destruct (key_press_effect env s self NE S)
          as (_ & (item & N & _ & T)).
        rewrite T. constructor; [|constructor].
        exists item. split; [reflexivity|]. rewrite <- E.
        apply nth_error_In in N. exact N.
    + rewrite (key_up_none env self S). constructor.
    + rewrite (key_up_unset env self S). constructor.
Qed.

Lemma script_items_grow ops : forall self,
  exists added, _items (final (script ops self)) = _items self ++ added.
Proof.
  induction ops as [|o rest IH]; intros self.
  - exists []. rewrite app_nil_r. reflexivity.
  - rewrite script_cons. destruct (exec_items o self) as (I & _).
    destruct (result (exec o self)) as [[]|e]; cbn [final].
    + destruct (IH (final (exec o self))) as (added & E).
      exists (added_by o ++ added). rewrite E, I, app_assoc. reflexivity.
    + exists (added_by o). exact I.
Qed.

(** X8. Every [ItemSelected] message a widget emits, over any sequence of
    events, is tagged with the class of the widget and carries a label that
    is in its item list at the end of the sequence. *)
Theorem notifications_name_listed_items (ops : list op) (self : ItemControl) :
  Forall (names_item (cls self) (_items (final (script ops self))))
         (notifications (trace (script ops self))).
Proof.
  revert self. induction ops as [|o rest IH]; intros self.
  - constructor.
  - rewrite script_cons. pose proof (exec_names_items o self) as H.
    destruct (exec_items o self) as (_ & C).
    destruct (result (exec o self)) as [[]|e]; cbn [final trace];
      [|exact H].
    rewrite notifications_app. apply Forall_app. split.
    + destruct (script_items_grow rest (final (exec o self))) as (added & E).
      rewrite E. eapply Forall_impl; [|exact H].
      intros m. apply names_item_grows.
    + specialize (IH (final (exec o self))). rewrite C in IH. exact IH.
Qed.

(** ** Running without errors *)

Lemma invariant_nonempty_selection self :
  invariant self = true -> _items self <> [] ->
  exists i, _selected_index self = Some (Some i).
Proof.
  unfold invariant. intros I NE.
  destruct (_selected_index self) as [[i|]|]; [| |discriminate].
  - exists i. reflexivity.
  - apply is_empty_true in I. congruence.
Qed.

Lemma exec_safe o self :
  invariant self = true -> _items self <> [] -> op_usable o = true ->
  result (exec o self) = Return tt /\
  List.length (notifications (trace (exec o self)))
    = (if assigns_index o then 1 else 0)%nat.
Proof.
  intros I NE U.
  destruct (invariant_nonempty_selection self I NE) as (i & S).
  destruct o as [|l|[v|]|env|env]; cbn [exec assigns_index op_usable] in *.
  - destruct (setter_nonempty 0 self NE) as (item & _ & R). unfold _on_mount.
    rewrite R. split; reflexivity.
  - rewrite (add_items_run_some i l self S). split; reflexivity.
  - destruct (setter_nonempty v self NE) as (item & _ & R).
    rewrite R. split; reflexivity.
  - rewrite setter_none. split; reflexivity.
  - destruct (usable_parent env U) as (p & P & H).
    destruct (key_down_run env p i self NE S P H) as (item & _ & R).
    destruct (key_press_effect env i self NE S) as ((item' & _ & _ & T) & _).
    rewrite T. rewrite R. split; reflexivity.
  - destruct (usable_parent env U) as (p & P & H).
    destruct (key_up_run env p i self NE S P H) as (item & _ & R).
    destruct (key_press_effect env i self NE S) as (_ & (item' & _ & _ & T)).
    rewrite T. rewrite R. split; reflexivity.
Qed.

(** X9. Once a widget is mounted and has items, no handler raises as long
    as the key events reach it inside a viewport of non-zero content
    height: any such sequence of loads, assignments and key presses returns
    normally and keeps the invariant. It emits exactly one message per
    mount, integer assignment and key press, and none for a load or an
    assignment of [None]. *)
Theorem script_runs_without_error (ops : list op) (self : ItemControl) :
  invariant self = true ->
  _items self <> [] ->
  forallb op_usable ops = true ->
  result (script ops self) = Return tt /\
  invariant (final (script ops self)) = true /\
  List.length (notifications (trace (script ops self)))
    = List.length (filter assigns_index ops).
Proof.
  revert self. induction ops as [|o rest IH]; intros self I NE U.
  - cbn. repeat split. exact I.
  - cbn [forallb] in U. apply andb_prop in U. destruct U as [U1 U2].
    destruct (exec_safe o self I NE U1) as (R & N).
    pose proof (exec_invariant o self I) as I'.
    destruct (exec_items o self) as (E & _).
    assert (NE' : _items (final (exec o self)) <> []).
    { rewrite E. intros X. apply app_eq_nil in X. tauto. }
    destruct (IH (final (exec o self)) I' NE' U2) as (R' & I'' & N').
    rewrite script_cons, R. cbn [final trace result].
    split; [exact R'|]. split; [exact I''|].
    rewrite notifications_app, length_app, N, N'. cbn [filter].
    destruct (assigns_index o); reflexivity.
Qed.

Lemma script_runs_without_error_witness :
  let env := mkEnv (Some (mkViewport 5 0)) 5 in
  let self := mkItemControl EnvList ["env1"; "env2.yaml"; "env3"] (Some (Some 0)) in
  result (script [KeyDown env; AddItems ["env4"]; KeyUp env] self) = Return tt /\
  List.length
    (notifications (trace (script [KeyDown env; AddItems ["env4"]; KeyUp env] self)))
    = 2%nat.
Proof.
  cbv zeta.
  destruct (script_runs_without_error
              [KeyDown (mkEnv (Some (mkViewport 5 0)) 5); AddItems ["env4"];
               KeyUp (mkEnv (Some (mkViewport 5 0)) 5)]
              (mkItemControl EnvList ["env1"; "env2.yaml"; "env3"] (Some (Some 0))))
    as (R & _ & N).
  - reflexivity.
  - discriminate.
  - reflexivity.
  - split; [exact R | exact N].
Defined.

(** ** Loading in batches *)

Lemma extend_extend a b self :
  extend b (extend a self) = extend (a ++ b) self.
Proof.
  unfold extend. cbn [cls _items _selected_index]. rewrite app_assoc.
  reflexivity.
Qed.

Lemma add_items_twice (a b : list string) (self : ItemControl) :
  invariant self = true ->
  let two := (add_items a ;; add_items b) self in
  let one := add_items (a ++ b) self in
  final two = final one /\
  notifications (trace two) = notifications (trace one) /\
  result two = Return tt /\
  result one = Return tt.
Proof.
  intros I. cbv zeta. unfold invariant in I.
  destruct self as [c l sel]. cbn [_selected_index _items] in I.
  destruct sel as [[i|]|]; [| |discriminate].
  - set (self := mkItemControl c l (Some (Some i))).
    rewrite (bind_return _ _ _ _ _ _ (add_items_run_some i a self eq_refl)).
    rewrite (add_items_run_some i b (extend a self) eq_refl).
    rewrite (add_items_run_some i (a ++ b) self eq_refl).
    cbn [final trace result]. rewrite extend_extend. repeat split.
  - apply is_empty_true in I. subst l.
    set (self := mkItemControl c [] (Some None)).
    rewrite (add_items_run_none (a ++ b) self eq_refl).
    destruct a as [|x a'].
    + assert (R : add_items [] self = mkRun self [Refresh true] (Return tt))
        by reflexivity.
      rewrite (bind_return _ _ _ _ _ _ R).
      rewrite (add_items_run_none b self eq_refl). cbn [app final trace result].
      rewrite (setter_returns (Some 0) (extend b self)). repeat split.
    + assert (NE : _items (extend (x :: a') self) <> []) by discriminate.
      assert (NE2 : _items (extend ((x :: a') ++ b) self) <> []) by discriminate.
      destruct (setter_nonempty 0 _ NE) as (i1 & N1 & R1).
      destruct (setter_nonempty 0 _ NE2) as (i2 & N2 & R2).
      pose proof (is_empty_false_len _ (is_empty_false _ NE)) as L1.
      pose proof (is_empty_false_len _ (is_empty_false _ NE2)) as L2.
      rewrite clamp_max_min in N1, R1 by lia.
      rewrite clamp_max_min in N2, R2 by lia.
      replace (Z.max 0 (Z.min 0 (len (_items (extend (x :: a') self)) - 1)))
        with 0 in N1, R1 by lia.
      replace (Z.max 0 (Z.min 0 (len (_items (extend ((x :: a') ++ b) self)) - 1)))
        with 0 in N2, R2 by lia.
      cbn in N1, N2. injection N1 as <-. injection N2 as <-.
      assert (A1 : add_items (x :: a') self =
                   mkRun (set_field (Some 0) (extend (x :: a') self))
                         [Emit (ItemSelected c x); Refresh true] (Return tt))
        by (rewrite (add_items_run_none (x :: a') self eq_refl); exact R1).
      rewrite (bind_return _ _ _ _ _ _ A1), R2.
      rewrite (add_items_run_some 0 b
                 (set_field (Some 0) (extend (x :: a') self)) eq_refl).
      cbn [final trace result]. repeat split.
Qed.

(** X10. On a mounted widget, loading two batches one after the other
    leaves the same state and emits the same messages as loading them in
    one call; neither raises. *)
Theorem add_items_in_batches (a b : list string) (self : ItemControl) :
  invariant self = true ->
  let two := (add_items a ;; add_items b) self in
  let one := add_items (a ++ b) self in
  final two = final one /\
  notifications (trace two) = notifications (trace one) /\
  result two = Return tt /\
  result one = Return tt.
Proof. exact (add_items_twice a b self). Qed.

Lemma add_items_in_batches_witness :
  let self := final (_on_mount (__init__ ProfileList)) in
  final ((add_items ["p"; "q"] ;; add_items ["r"]) self)
    = final (add_items (["p"; "q"] ++ ["r"]) self) /\
  notifications (trace ((add_items ["p"; "q"] ;; add_items ["r"]) self))
    = notifications (trace (add_items (["p"; "q"] ++ ["r"]) self)).
Proof.
  cbv zeta.
  destruct (add_items_in_batches ["p"; "q"] ["r"]
              (final (_on_mount (__init__ ProfileList)))) as (F & N & _).
  - reflexivity.
  - split; [exact F | exact N].
Defined.

(** ** Rendering *)

Lemma rows_from_fst l : forall i s, map fst (rows_from i l s) = l.
Proof.
  induction l as [|x r IH]; intros i s; [reflexivity|].
  cbn [rows_from map fst]. rewrite IH. reflexivity.
Qed.

Lemma rows_from_none l : forall i, filter snd (rows_from i l None) = [].
Proof.
  induction l as [|x r IH]; intros i; [reflexivity|].
  cbn [rows_from filter snd is_selected]. apply IH.
Qed.

Lemma rows_from_below l : forall i j,
  j < i -> filter snd (rows_from i l (Some j)) = [].
Proof.
  induction l as [|x r IH]; intros i j H; [reflexivity|].
  cbn [rows_from filter snd is_selected].
  destruct (i =? j) eqn:E; [apply Z.eqb_eq in E; lia|].
  apply IH. lia.
Qed.

Lemma rows_from_selected l : forall i j item,
  i <= j ->
  nth_error l (Z.to_nat (j - i)) = Some item ->
  filter snd (rows_from i l (Some j)) = [(item, true)].
Proof.
  induction l as [|x r IH]; intros i j item H N.
  - destruct (Z.to_nat (j - i)); discriminate.
  - cbn [rows_from filter snd is_selected].
    destruct (i =? j) eqn:E.
    + apply Z.eqb_eq in E. subst j. rewrite Z.sub_diag in N. cbn in N.
      injection N as <-. rewrite rows_from_below by lia. reflexivity.
    + apply Z.eqb_neq in E. apply IH; [lia|].
      replace (Z.to_nat (j - i)) with (S (Z.to_nat (j - (i + 1)))) in N by lia.
      exact N.
Qed.

(** X11. A render pass of a mounted widget returns without raising and
    does not touch the widget; it draws one row per item, in list order,
    and puts the cursor style on exactly one row, the selected one, when the
    list has items, and on none when it is empty. *)
Theorem render_rows_highlight (self : ItemControl) :
  invariant self = true ->
  exists rows,
    render_rows self = mkRun self [] (Return rows) /\
    map fst rows = _items self /\
    match _selected_index self with
    | Some (Some j) =>
        exists item,
          nth_error (_items self) (Z.to_nat j) = Some item /\
          nth_error rows (Z.to_nat j) = Some (item, true) /\
          filter snd rows = [(item, true)]
    | _ => rows = []
    end.
Proof.
  intros I. unfold invariant in I.
  destruct (_selected_index self) as [[j|]|] eqn:S; [| |discriminate].
  - apply andb_prop in I. destruct I as [I I2].
    apply andb_prop in I. destruct I as [I0 I1].
    apply Z.leb_le in I1, I2.
    exists (rows_from 0 (_items self) (Some j)).
    split; [|split; [apply rows_from_fst|]].
    + unfold render_rows, render, bind, read.
      rewrite (selected_index_run (Some j) self S). reflexivity.
    + destruct (nth_error (_items self) (Z.to_nat j)) as [item|] eqn:N.
      * exists item. split; [reflexivity|].
        assert (F : filter snd (rows_from 0 (_items self) (Some j))
                    = [(item, true)]).
        { apply rows_from_selected; [lia|]. rewrite Z.sub_0_r. exact N. }
        split; [|exact F].
        assert (G : forall l i k x,
                   nth_error l k = Some x ->
                   nth_error (rows_from i l (Some j)) k
                     = Some (x, i + Z.of_nat k =? j)).
        { clear. induction l as [|y r IH]; intros i k x H.
          - destruct k; discriminate.
          - destruct k as [|k]; cbn [rows_from nth_error is_selected] in *.
            + injection H as <-. rewrite Z.add_0_r. reflexivity.
            + rewrite (IH (i + 1) k x H). do 2 f_equal. f_equal. lia. }
        rewrite (G _ 0 _ _ N). do 2 f_equal. apply Z.eqb_eq. lia.
      * apply nth_error_None in N. unfold len in I2. lia.
  - apply is_empty_true in I. exists []. split; [|split; [|reflexivity]].
    + unfold render_rows, render, bind, read.
      rewrite (selected_index_run None self S). rewrite I. reflexivity.
    + symmetry. exact I.
Qed.

Lemma render_rows_highlight_witness :
  let self := mkItemControl EnvList ["env1"; "env2.yaml"] (Some (Some 1)) in
  exists rows,
    result (render_rows self) = Return rows /\
    map fst rows = ["env1"; "env2.yaml"] /\
    filter snd rows = [("env2.yaml", true)].
Proof.
  cbv zeta.
  destruct (render_rows_highlight
              (mkItemControl EnvList ["env1"; "env2.yaml"] (Some (Some 1))))
    as (rows & R & F & H).
  - reflexivity.
  - exists rows. cbn [_selected_index _items] in H.
    destruct H as (item & N & _ & G). cbn in N. injection N as <-.
    split; [rewrite R; reflexivity|]. split; [exact F | exact G].
Defined.

(** ** Content height *)

(** X12. The content height the widget asks for is never below the height
    of its container nor below the number of its items, it is the container
    height while the items fit, and no sequence of events makes it
    smaller. *)
Theorem content_height_never_shrinks (container_height : Z) (ops : list op)
    (self : ItemControl) :
  container_height <= get_content_height container_height self /\
  len (_items self) <= get_content_height container_height self /\
  (len (_items self) <= container_height ->
   get_content_height container_height self = container_height) /\
  get_content_height container_height self
    <= get_content_height container_height (final (script ops self)).
Proof.
  unfold get_content_height.
  destruct (script_items_grow ops self) as (added & E). rewrite E, len_app.
  pose proof (len_nonneg added). repeat split; lia.
Qed.

Lemma content_height_never_shrinks_witness :
  let self := mkItemControl EnvList ["a"; "b"] (Some (Some 0)) in
  get_content_height 10 self = 10 /\
  10 <= get_content_height 10 (final (script [AddItems ["c"]] self)).
Proof.
  cbv zeta.
  destruct (content_height_never_shrinks 10 [AddItems ["c"]]
              (mkItemControl EnvList ["a"; "b"] (Some (Some 0))))
    as (_ & _ & A & B).
  split; [apply A; cbn; lia|].
  rewrite <- B. apply Z.eq_le_incl. symmetry. apply A. cbn. lia.
Defined.

(** ** The application's mount handler *)

Lemma list_times_length l n :
  List.length (list_times l n) = (n * List.length l)%nat.
Proof.
  unfold list_times. induction n as [|n IH]; [reflexivity|].
  cbn [repeat List.concat]. rewrite length_app, IH. reflexivity.
Qed.

Lemma add_items_returns l self :
  invariant self = true -> result (add_items l self) = Return tt.
Proof.
  intros I. unfold invariant in I.
  destruct (_selected_index self) as [[i|]|] eqn:S; [| |discriminate].
  - rewrite (add_items_run_some i l self S). reflexivity.
  - rewrite (add_items_run_none l self S). apply setter_returns.
Qed.

(** The first load of a mounted, empty list selects its first item. *)
Lemma add_items_first_load c l :
  notifications (trace (add_items l (mkItemControl c [] (Some None))))
    = match l with
      | [] => []
      | x :: _ => [ItemSelected c x]
      end /\
  _selected_index (final (add_items l (mkItemControl c [] (Some None))))
    = match l with
      | [] => Some None
      | _ :: _ => Some (Some 0)
      end.
Proof.
  set (self := mkItemControl c [] (Some None)).
  rewrite (add_items_run_none l self eq_refl).
  destruct l as [|x l]; [split; reflexivity|].
  assert (NE : _items (extend (x :: l) self) <> []) by discriminate.
  destruct (setter_nonempty 0 _ NE) as (item & N & R). rewrite R.
  pose proof (is_empty_false_len _ (is_empty_false _ NE)) as L.
  rewrite clamp_max_min in N |- * by lia.
  replace (Z.max 0 (Z.min 0 (len (_items (extend (x :: l) self)) - 1)))
    with 0 in N |- * by lia.
  cbn in N. injection N as <-. split; reflexivity.
Qed.

(** The three loads of the profile list amount to one load of the three
    batches in a row. *)
Lemma load_profiles_as_one default_name first second third self :
  invariant self = true ->
  let batch :=
    list_times (not_default default_name first) 10
      ++ map (fun name => String.append name "2") (not_default default_name second)
      ++ map (fun name => String.append name "3") (not_default default_name third) in
  let r := load_profiles default_name first second third self in
  result r = Return tt /\
  final r = final (add_items batch self) /\
  notifications (trace r) = notifications (trace (add_items batch self)).
Proof.
  intros I. cbv zeta. unfold load_profiles.
  set (a := list_times (not_default default_name first) 10).
  set (b := map (fun name => String.append name "2") (not_default default_name second)).
  set (c := map (fun name => String.append name "3") (not_default default_name third)).
  pose proof (add_items_returns a self I) as Ra.
  pose proof (add_items_invariant a self I) as Ia.
  destruct (add_items a self) as [s1 t1 o1] eqn:E1.
  cbn [final result] in Ra, Ia. subst o1.
  destruct (add_items_twice b c s1 Ia) as (F2 & N2 & R2 & _).
  destruct (add_items_twice a (b ++ c) self I) as (F1 & N1 & _ & _).
  rewrite (bind_return _ _ _ _ _ _ E1) in F1, N1.
  rewrite (bind_return _ _ _ _ _ _ E1).
  cbn [final trace result] in *.
  rewrite notifications_app in N1 |- *.
  split; [exact R2|]. split.
  - rewrite F2. exact F1.
  - rewrite N2. exact N1.
Qed.

(** X13. When both lists are mounted, [QdApp.on_mount] returns without
    raising, writes three lines to the log and gives the focus to the
    environment list. The environment list gets the environment names in
    sorted order after what it had; the profile list gets ten copies of the
    non-default profile names, then those names with "2" appended, then with
    "3" appended. Both lists keep their invariant. On lists that were empty
    each list emits one message, for its first item, if it got any item, and
    the profile list emits none for its second and third load. *)
Theorem on_mount_fills_lists (env_names : list string) (default_name : string)
    (first second third : list string) (app : QdApp) :
  invariant (envs_list app) = true ->
  invariant (profiles_list app) = true ->
  let r := on_mount env_names default_name first second third app in
  let batch :=
    list_times (not_default default_name first) 10
      ++ map (fun name => String.append name "2") (not_default default_name second)
      ++ map (fun name => String.append name "3") (not_default default_name third) in
  app_result r = Return tt /\
  docker_log (app_final r)
    = docker_log app ++ [string_times "text " 100; "text"; "text"] /\
  focused (app_final r) = Some "envs" /\
  _items (envs_list (app_final r)) = _items (envs_list app) ++ sorted env_names /\
  Permutation env_names (sorted env_names) /\
  Sorted.Sorted (fun x y => String.leb x y = true) (sorted env_names) /\
  _items (profiles_list (app_final r)) = _items (profiles_list app) ++ batch /\
  List.length batch
    = (10 * List.length (not_default default_name first)
       + List.length (not_default default_name second)
       + List.length (not_default default_name third))%nat /\
  invariant (envs_list (app_final r)) = true /\
  invariant (profiles_list (app_final r)) = true /\
  (forall c, envs_list app = mkItemControl c [] (Some None) ->
     notifications (envs_trace r)
       = match sorted env_names with
         | [] => []
         | x :: _ => [ItemSelected c x]
         end) /\
  (forall c, profiles_list app = mkItemControl c [] (Some None) ->
     notifications (profiles_trace r)
       = match batch with
         | [] => []
         | x :: _ => [ItemSelected c x]
         end).
Proof.
  intros Ie Ip. cbv zeta. unfold on_mount.
  pose proof (add_items_returns (sorted env_names) (envs_list app) Ie) as Re.
  rewrite Re. cbn [app_final app_result envs_trace profiles_trace docker_log
                   focused envs_list profiles_list].
  destruct (load_profiles_as_one default_name first second third
              (profiles_list app) Ip) as (Rp & Fp & Np).
  destruct (exec_items (AddItems (sorted env_names)) (envs_list app)) as (Ee & _).
  cbn [exec added_by] in Ee.
  split; [exact Rp|]. split; [reflexivity|]. split; [reflexivity|].
  split; [exact Ee|]. split; [apply StringSort.Permuted_sort|].
  split; [apply StringSort.Sorted_sort|].
  split.
  { rewrite Fp.
    destruct (exec_items (AddItems
      (list_times (not_default default_name first) 10
       ++ map (fun name => String.append name "2") (not_default default_name second)
       ++ map (fun name => String.append name "3") (not_default default_name third)))
      (profiles_list app)) as (E & _).
    exact E. }
  split.
  { rewrite !length_app, !length_map, list_times_length. lia. }
  split; [apply add_items_invariant, Ie|].
  split; [rewrite Fp; apply add_items_invariant, Ip|].
  split.
  - intros c E. rewrite E. apply add_items_first_load.
  - intros c E. rewrite Np, E. apply add_items_first_load.
Qed.

Lemma on_mount_fills_lists_witness :
  let app := mkQdApp [] (final (_on_mount (__init__ EnvList)))
               (final (_on_mount (__init__ ProfileList))) None in
  let r := on_mount ["stage"; "prod"] "default" ["default"; "dev"]
             ["default"; "dev"] ["default"; "dev"] app in
  app_result r = Return tt /\
  _items (envs_list (app_final r)) = ["prod"; "stage"] /\
  List.length (_items (profiles_list (app_final r))) = 12%nat /\
  notifications (envs_trace r) = [ItemSelected EnvList "prod"] /\
  notifications (profiles_trace r) = [ItemSelected ProfileList "dev"].
Proof.
  cbv zeta.
  destruct (on_mount_fills_lists ["stage"; "prod"] "default" ["default"; "dev"]
              ["default"; "dev"] ["default"; "dev"]
              (mkQdApp [] (final (_on_mount (__init__ EnvList)))
                 (final (_on_mount (__init__ ProfileList))) None))
    as (R & _ & _ & E & _ & _ & P & _ & _ & _ & Ne & Np).
  - reflexivity.
  - reflexivity.
  - split; [exact R|]. split; [exact E|].
    split; [rewrite P; reflexivity|].
    split; [exact (Ne EnvList eq_refl) | exact (Np ProfileList eq_refl)].
Defined.

(** X14. When [QdApp.on_mount] runs before the lists are mounted, it
    raises [AttributeError] at the first load: the environment names have
    been appended to the environment list, but nothing is selected or
    emitted, the focus is not moved and the profile list is not touched. If
    only the profile list is not mounted, the exception comes at its first
    load: the focus is on the environment list and the profile list holds
    the ten copies but none of the later batches. *)
Theorem on_mount_before_lists_are_mounted (env_names : list string)
    (default_name : string) (first second third : list string) (app : QdApp) :
  let r := on_mount env_names default_name first second third app in
  (_selected_index (envs_list app) = None ->
   app_result r = Raise AttributeError /\
   _items (envs_list (app_final r)) = _items (envs_list app) ++ sorted env_names /\
   _selected_index (envs_list (app_final r)) = None /\
   profiles_list (app_final r) = profiles_list app /\
   focused (app_final r) = focused app /\
   envs_trace r = [] /\ profiles_trace r = []) /\
  (invariant (envs_list app) = true ->
   _selected_index (profiles_list app) = None ->
   app_result r = Raise AttributeError /\
   focused (app_final r) = Some "envs" /\
   _items (profiles_list (app_final r))
     = _items (profiles_list app)
         ++ list_times (not_default default_name first) 10 /\
   profiles_trace r = []).
Proof.
  cbv zeta. unfold on_mount. split.
  - intros S. rewrite (add_items_run_unset _ _ S).
    cbn [result final trace app_final app_result envs_trace profiles_trace
         envs_list profiles_list focused extend _items _selected_index].
    repeat split. exact S.
  - intros Ie S.
    rewrite (add_items_returns (sorted env_names) (envs_list app) Ie).
    unfold load_profiles.
    rewrite (bind_raise _ _ _ _ _ _ (add_items_run_unset _ _ S)).
    cbn [result final trace app_final app_result envs_trace profiles_trace
         envs_list profiles_list focused extend _items].
    repeat split.
Qed.

Lemma on_mount_before_lists_are_mounted_witness :
  let app := mkQdApp [] (__init__ EnvList) (__init__ ProfileList) None in
  let r := on_mount ["b"; "a"] "default" ["dev"] ["dev"] ["dev"] app in
  app_result r = Raise AttributeError /\
  _items (envs_list (app_final r)) = ["a"; "b"] /\
  profiles_list (app_final r) = __init__ ProfileList.
Proof.
  cbv zeta.
  destruct (on_mount_before_lists_are_mounted ["b"; "a"] "default" ["dev"]
              ["dev"] ["dev"]
              (mkQdApp [] (__init__ EnvList) (__init__ ProfileList) None))
    as (A & _).
  destruct (A eq_refl) as (R & E & _ & P & _).
  split; [exact R|]. split; [exact E | exact P].
Defined.

(** * The earlier widget *)

Lemma copy_positions_nth n k :
  (k < n)%nat -> nth_error (WidgetsCopy.positions n) k = Some (Z.of_nat k).
Proof.
  intros H. unfold WidgetsCopy.positions.
  rewrite nth_error_map, nth_error_seq.
  destruct (Nat.ltb_spec k n); [reflexivity | lia].
Qed.

Lemma copy_numbered_id l k node :
  map WidgetsCopy.id l = WidgetsCopy.positions (List.length l) ->
  nth_error l k = Some node ->
  WidgetsCopy.id node = Z.of_nat k.
Proof.
  intros H N.
  assert (K : (k < List.length l)%nat)
    by (apply nth_error_Some; congruence).
  pose proof (copy_positions_nth _ _ K) as P. rewrite <- H in P.
  rewrite nth_error_map, N in P. cbn in P. congruence.
Qed.

Lemma copy_getitem_in_range l i :
  0 <= i < Z.of_nat (List.length l) ->
  exists node, nth_error l (Z.to_nat i) = Some node /\
               WidgetsCopy.getitem l i = Some node.
Proof.
  intros H. unfold WidgetsCopy.getitem.
  destruct (i <? 0) eqn:E; [apply Z.ltb_lt in E; lia|]. rewrite E.
  destruct (nth_error l (Z.to_nat i)) as [node|] eqn:N.
  - exists node. split; reflexivity.
  - apply nth_error_None in N. lia.
Qed.

Lemma copy_getitem_beyond l i :
  Z.of_nat (List.length l) <= i -> WidgetsCopy.getitem l i = None.
Proof.
  intros H. unfold WidgetsCopy.getitem.
  destruct (i <? 0) eqn:E; [apply Z.ltb_lt in E; lia|]. rewrite E.
  apply nth_error_None. lia.
Qed.

(** On a numbered list, moving the cursor to a row in range selects the
    node of that row. *)
Lemma copy_cursor_to_line l c line :
  map WidgetsCopy.id l = WidgetsCopy.positions (List.length l) ->
  0 <= line < Z.of_nat (List.length l) ->
  WidgetsCopy.cursor_to_line (WidgetsCopy.mkItemControl l c line)
    = Some (WidgetsCopy.mkItemControl l (Some line) line).
Proof.
  intros H R. unfold WidgetsCopy.cursor_to_line.
  cbn [WidgetsCopy._item_list WidgetsCopy.cursor_line].
  destruct (copy_getitem_in_range l line R) as (node & N & G). rewrite G.
  rewrite (copy_numbered_id l _ node H N).
  unfold WidgetsCopy.set_cursor. cbn. do 3 f_equal. lia.
Qed.

Lemma copy_cursor_down_step l c line :
  map WidgetsCopy.id l = WidgetsCopy.positions (List.length l) ->
  0 <= line < Z.of_nat (List.length l) ->
  let m := (line + 1) mod Z.of_nat (List.length l) in
  WidgetsCopy.cursor_down (WidgetsCopy.mkItemControl l c line)
    = (WidgetsCopy.mkItemControl l (Some m) m, Return tt).
Proof.
  intros H R. cbv zeta. unfold WidgetsCopy.cursor_down.
  unfold WidgetsCopy.set_cursor_line.
  cbn [WidgetsCopy._item_list WidgetsCopy.cursor WidgetsCopy.cursor_line].
  destruct (Z.eq_dec (line + 1) (Z.of_nat (List.length l))) as [E|E].
  - replace ((line + 1) mod Z.of_nat (List.length l)) with 0
      by (apply Z.mod_unique with (q := 1); lia).
    unfold WidgetsCopy.cursor_to_line at 1.
    cbn [WidgetsCopy._item_list WidgetsCopy.cursor_line].
    rewrite copy_getitem_beyond by lia.
    rewrite copy_cursor_to_line by (try assumption; lia). reflexivity.
  - rewrite Z.mod_small by lia.
    rewrite copy_cursor_to_line by (try assumption; lia). reflexivity.
Qed.

Lemma copy_cursor_up_step l c line :
  map WidgetsCopy.id l = WidgetsCopy.positions (List.length l) ->
  0 <= line < Z.of_nat (List.length l) ->
  let m := (line - 1) mod Z.of_nat (List.length l) in
  WidgetsCopy.cursor_up (WidgetsCopy.mkItemControl l c line)
    = (WidgetsCopy.mkItemControl l (Some m) m, Return tt).
Proof.
  intros H R. cbv zeta. unfold WidgetsCopy.cursor_up.
  unfold WidgetsCopy.set_cursor_line.
  cbn [WidgetsCopy._item_list WidgetsCopy.cursor WidgetsCopy.cursor_line].
  destruct (line - 1 <? 0) eqn:E.
  - apply Z.ltb_lt in E. assert (line = 0) by lia. subst line.
    replace ((0 - 1) mod Z.of_nat (List.length l))
      with (Z.of_nat (List.length l) - 1).
    + rewrite copy_cursor_to_line by (try assumption; lia). reflexivity.
    + apply Z.mod_unique with (q := -1); lia.
  - apply Z.ltb_ge in E. rewrite Z.mod_small by lia.
    rewrite copy_cursor_to_line by (try assumption; lia). reflexivity.
Qed.

(** X15. In [widgets copy.py] the cursor wraps around: on a numbered,
    non-empty list of [n] items with the cursor row in range, [cursor_down]
    moves to row [(row + 1) mod n] and [cursor_up] to row [(row - 1) mod n],
    the cursor becomes the identifier of that row and nothing is raised; so
    down from the last row lands on the first and up from the first on the
    last, and [cursor_up] undoes [cursor_down]. *)
Theorem copy_cursor_wraps (l : list WidgetsCopy.ItemNode) (c : option Z)
    (line : Z) :
  map WidgetsCopy.id l = WidgetsCopy.positions (List.length l) ->
  0 <= line < Z.of_nat (List.length l) ->
  let n := Z.of_nat (List.length l) in
  let self := WidgetsCopy.mkItemControl l c line in
  let at_row m := WidgetsCopy.mkItemControl l (Some m) m in
  WidgetsCopy.cursor_down self = (at_row ((line + 1) mod n), Return tt) /\
  WidgetsCopy.cursor_up self = (at_row ((line - 1) mod n), Return tt) /\
  WidgetsCopy.cursor_down (at_row (n - 1)) = (at_row 0, Return tt) /\
  WidgetsCopy.cursor_up (at_row 0) = (at_row (n - 1), Return tt) /\
  WidgetsCopy.cursor_up (fst (WidgetsCopy.cursor_down self))
    = (at_row line, Return tt).
Proof.
  intros H R n self at_row.
  pose proof (copy_cursor_down_step l c line H R) as D.
  pose proof (copy_cursor_up_step l c line H R) as U.
  cbv zeta in D, U. fold n in D, U.
  split; [exact D|]. split; [exact U|].
  assert (M : 0 <= (line + 1) mod n < n) by (apply Z.mod_pos_bound; lia).
  split; [|split].
  - unfold at_row. rewrite copy_cursor_down_step by (try assumption; lia).
    fold n. replace (n - 1 + 1) with n by lia.
    rewrite Z_mod_same_full. reflexivity.
  - unfold at_row. rewrite copy_cursor_up_step by (try assumption; lia).
    fold n. replace ((0 - 1) mod n) with (n - 1); [reflexivity|].
    apply Z.mod_unique with (q := -1); lia.
  - unfold self. rewrite D. cbn [fst].
    rewrite copy_cursor_up_step by (try assumption; fold n; lia). fold n.
    replace (((line + 1) mod n - 1) mod n) with line; [reflexivity|].
    destruct (Z.eq_dec (line + 1) n) as [E|E].
    + rewrite E, Z_mod_same_full.
      apply Z.mod_unique with (q := -1); lia.
    + rewrite (Z.mod_small (line + 1)) by lia.
      rewrite Z.mod_small by lia. lia.
Qed.

Lemma copy_cursor_wraps_witness :
  let l := [WidgetsCopy.mkItemNode 0 "a"; WidgetsCopy.mkItemNode 1 "b";
            WidgetsCopy.mkItemNode 2 "c"] in
  WidgetsCopy.cursor_down (WidgetsCopy.mkItemControl l (Some 2) 2)
    = (WidgetsCopy.mkItemControl l (Some 0) 0, Return tt) /\
  WidgetsCopy.cursor_up (WidgetsCopy.mkItemControl l (Some 0) 0)
    = (WidgetsCopy.mkItemControl l (Some 2) 2, Return tt).
Proof.
  cbv zeta.
  destruct (copy_cursor_wraps
              [WidgetsCopy.mkItemNode 0 "a"; WidgetsCopy.mkItemNode 1 "b";
               WidgetsCopy.mkItemNode 2 "c"] (Some 2) 2)
    as (_ & _ & D & U & _).
  - reflexivity.
  - cbn. lia.
  - split; [exact D | exact U].
Defined.

(** X16. On an empty list every move of the cursor and the enter key raise
    [IndexError]: [cursor_down] leaves the cursor row at 0 (the handler of
    the first [IndexError] raises a second one), [cursor_up] leaves it
    negative, the cursor itself is not changed and [key_enter] posts
    nothing. *)
Theorem copy_empty_list_raises (c : option Z) (line : Z) :
  let self := WidgetsCopy.mkItemControl [] c line in
  WidgetsCopy.cursor_down self
    = (WidgetsCopy.mkItemControl [] c 0, Raise IndexError) /\
  snd (WidgetsCopy.cursor_up self) = Raise IndexError /\
  WidgetsCopy.cursor (fst (WidgetsCopy.cursor_up self)) = c /\
  WidgetsCopy.cursor_up (WidgetsCopy.mkItemControl [] c 0)
    = (WidgetsCopy.mkItemControl [] c (-1), Raise IndexError) /\
  WidgetsCopy.key_down self
    = WidgetsCopy.mkRun (WidgetsCopy.mkItemControl [] c 0)
        [WidgetsCopy.EventStop] (Raise IndexError) /\
  WidgetsCopy.key_enter self
    = WidgetsCopy.mkRun self [WidgetsCopy.EventStop] (Raise IndexError).
Proof.
  cbv zeta.
  assert (G : forall i, WidgetsCopy.getitem [] i = None).
  { intros i. unfold WidgetsCopy.getitem.
    destruct ((if i <? 0 then Z.of_nat (List.length (@nil WidgetsCopy.ItemNode)) + i
               else i) <? 0); [reflexivity|].
    destruct (Z.to_nat _); reflexivity. }
  assert (D : WidgetsCopy.cursor_down (WidgetsCopy.mkItemControl [] c line)
              = (WidgetsCopy.mkItemControl [] c 0, Raise IndexError)).
  { unfold WidgetsCopy.cursor_down, WidgetsCopy.cursor_to_line,
      WidgetsCopy.set_cursor_line.
    cbn [WidgetsCopy._item_list WidgetsCopy.cursor WidgetsCopy.cursor_line].
    rewrite !G. reflexivity. }
  assert (U : forall x, exists y,
             WidgetsCopy.cursor_up (WidgetsCopy.mkItemControl [] c x)
             = (WidgetsCopy.mkItemControl [] c y, Raise IndexError)).
  { intros x. unfold WidgetsCopy.cursor_up, WidgetsCopy.cursor_to_line,
      WidgetsCopy.set_cursor_line.
    cbn [WidgetsCopy._item_list WidgetsCopy.cursor WidgetsCopy.cursor_line].
    destruct (x - 1 <? 0); rewrite G; eexists; reflexivity. }
  split; [exact D|].
  destruct (U line) as (y & E). rewrite E. cbn [fst snd WidgetsCopy.cursor].
  split; [reflexivity|]. split; [reflexivity|].
  split; [reflexivity|]. split.
  - unfold WidgetsCopy.key_down. rewrite D. reflexivity.
  - unfold WidgetsCopy.key_enter. cbn [WidgetsCopy._item_list]. rewrite G.
    reflexivity.
Qed.

Lemma copy_add_from items : forall i self,
  0 <= i ->
  map WidgetsCopy.label (WidgetsCopy._item_list (WidgetsCopy.add_from i items self))
    = map WidgetsCopy.label (WidgetsCopy._item_list self) ++ items /\
  map WidgetsCopy.id (WidgetsCopy._item_list (WidgetsCopy.add_from i items self))
    = map WidgetsCopy.id (WidgetsCopy._item_list self)
        ++ map (fun k => i + Z.of_nat k) (seq 0 (List.length items)) /\
  WidgetsCopy.cursor_line (WidgetsCopy.add_from i items self)
    = WidgetsCopy.cursor_line self /\
  WidgetsCopy.cursor (WidgetsCopy.add_from i items self)
    = match items with
      | [] => WidgetsCopy.cursor self
      | _ :: _ => if i =? 0 then Some 0 else WidgetsCopy.cursor self
      end.
Proof.
  induction items as [|x r IH]; intros i self Hi.
  - cbn. rewrite !app_nil_r. repeat split.
  - cbn [WidgetsCopy.add_from].
    destruct (IH (i + 1) (WidgetsCopy.add_item i x self) ltac:(lia))
      as (L & I & C & K).
    assert (A : WidgetsCopy._item_list (WidgetsCopy.add_item i x self)
                = WidgetsCopy._item_list self ++ [WidgetsCopy.mkItemNode i x]).
    { unfold WidgetsCopy.add_item. destruct (i =? 0); reflexivity. }
    assert (B : WidgetsCopy.cursor_line (WidgetsCopy.add_item i x self)
                = WidgetsCopy.cursor_line self).
    { unfold WidgetsCopy.add_item. destruct (i =? 0); reflexivity. }
    assert (D : WidgetsCopy.cursor (WidgetsCopy.add_item i x self)
                = if i =? 0 then Some i else WidgetsCopy.cursor self).
    { unfold WidgetsCopy.add_item. destruct (i =? 0); reflexivity. }
    rewrite A in L, I. rewrite map_app in L, I. cbn [map] in L, I.
    rewrite <- app_assoc in L, I. cbn [app] in L, I.
    split; [exact L|]. split; [|split].
    + rewrite I. cbn [List.length seq map]. rewrite Z.add_0_r.
      do 2 f_equal. rewrite <- seq_shift, map_map.
      apply map_ext. intros k. lia.
    + rewrite C. exact B.
    + rewrite D in K. destruct (i =? 0) eqn:E.
      * apply Z.eqb_eq in E. subst i.
        destruct r; exact K.
      * destruct r; [exact K|].
        destruct (i + 1 =? 0) eqn:E'; [apply Z.eqb_eq in E'; lia | exact K].
Qed.

Lemma copy_seq_from b : forall a,
  map Z.of_nat (seq a b) = map (fun k => Z.of_nat a + Z.of_nat k) (seq 0 b).
Proof.
  induction b as [|b IH]; intros a; [reflexivity|].
  cbn [seq map]. f_equal; [lia|].
  rewrite (IH (S a)), <- (seq_shift b 0), map_map.
  apply map_ext. intros k. lia.
Qed.

Lemma copy_positions_app a b :
  WidgetsCopy.positions (a + b)
    = WidgetsCopy.positions a
        ++ map (fun k => Z.of_nat a + Z.of_nat k) (seq 0 b).
Proof.
  unfold WidgetsCopy.positions. rewrite seq_app, map_app. f_equal.
  apply copy_seq_from.
Qed.

(** X17. [add_items] of [widgets copy.py] appends one node per item, in
    order, numbered on from the length of the list, so a list whose nodes
    carry their row as identifier stays so. It sets the cursor to 0 exactly
    when the list was empty and an item is given, and leaves the cursor and
    its row alone otherwise. *)
Theorem copy_add_items_numbers_nodes (items : list string)
    (self : WidgetsCopy.ItemControl) :
  let self' := WidgetsCopy.add_items items self in
  map WidgetsCopy.label (WidgetsCopy._item_list self')
    = map WidgetsCopy.label (WidgetsCopy._item_list self) ++ items /\
  WidgetsCopy.cursor_line self' = WidgetsCopy.cursor_line self /\
  WidgetsCopy.cursor self'
    = match WidgetsCopy._item_list self, items with
      | [], _ :: _ => Some 0
      | _, _ => WidgetsCopy.cursor self
      end /\
  (WidgetsCopy.numbered self -> WidgetsCopy.numbered self').
Proof.
  cbv zeta. unfold WidgetsCopy.add_items.
  destruct (copy_add_from items
              (Z.of_nat (List.length (WidgetsCopy._item_list self))) self
              ltac:(lia)) as (L & I & C & K).
  split; [exact L|]. split; [exact C|]. split.
  - rewrite K. destruct (WidgetsCopy._item_list self) as [|n l];
      destruct items; reflexivity.
  - unfold WidgetsCopy.numbered. intros N. rewrite I, N.
    assert (E : List.length
                  (WidgetsCopy._item_list
                     (WidgetsCopy.add_from
                        (Z.of_nat (List.length (WidgetsCopy._item_list self)))
                        items self))
                = (List.length (WidgetsCopy._item_list self)
                   + List.length items)%nat).
    { rewrite <- (length_map WidgetsCopy.label), L, length_app, length_map.
      reflexivity. }
    rewrite E, copy_positions_app. reflexivity.
Qed.

Lemma copy_add_items_numbers_nodes_witness :
  let self := WidgetsCopy.add_items ["a"; "b"] WidgetsCopy.__init__ in
  WidgetsCopy.numbered (WidgetsCopy.add_items ["c"] self) /\
  WidgetsCopy.cursor (WidgetsCopy.add_items ["c"] self) = Some 0.
Proof.
  cbv zeta.
  destruct (copy_add_items_numbers_nodes ["c"]
              (WidgetsCopy.add_items ["a"; "b"] WidgetsCopy.__init__))
    as (_ & _ & C & N).
  split; [apply N; reflexivity | exact C].
Defined.

Lemma copy_filter_below l : forall i t,
  map WidgetsCopy.id l = map Z.of_nat (seq i (List.length l)) ->
  t < Z.of_nat i ->
  filter (fun node => t =? WidgetsCopy.id node) l = [].
Proof.
  induction l as [|x r IH]; intros i t H T; [reflexivity|].
  cbn [List.length seq map] in H. injection H as Hx Hr.
  cbn [filter]. rewrite Hx.
  destruct (t =? Z.of_nat i) eqn:E; [apply Z.eqb_eq in E; lia|].
  apply (IH (S i)); [exact Hr | lia].
Qed.

Lemma copy_filter_row l : forall i k node,
  map WidgetsCopy.id l = map Z.of_nat (seq i (List.length l)) ->
  nth_error l k = Some node ->
  filter (fun nd => Z.of_nat (i + k) =? WidgetsCopy.id nd) l = [node].
Proof.
  induction l as [|x r IH]; intros i k node H N.
  - destruct k; discriminate.
  - cbn [List.length seq map] in H. injection H as Hx Hr.
    cbn [filter]. rewrite Hx. destruct k as [|k].
    + cbn in N. injection N as <-. rewrite Nat.add_0_r, Z.eqb_refl.
      rewrite (copy_filter_below r (S i)); [reflexivity | exact Hr | lia].
    + cbn [nth_error] in N.
      destruct (Z.of_nat (i + S k) =? Z.of_nat i) eqn:E;
        [apply Z.eqb_eq in E; lia|].
      replace (i + S k)%nat with (S i + k)%nat by lia.
      apply IH; assumption.
Qed.

(** X18. In [widgets copy.py], after a click on the item with identifier
    [k] of a numbered list, the enter key posts exactly the node of row [k],
    whose identifier is [k], without raising, and that node is the only one
    drawn as the cursor. *)
Theorem copy_click_then_enter (k : nat) (self : WidgetsCopy.ItemControl) :
  WidgetsCopy.numbered self ->
  (k < List.length (WidgetsCopy._item_list self))%nat ->
  let self' := WidgetsCopy.action_click_item (Z.of_nat k) self in
  exists node,
    nth_error (WidgetsCopy._item_list self) k = Some node /\
    WidgetsCopy.id node = Z.of_nat k /\
    WidgetsCopy.key_enter self'
      = WidgetsCopy.mkRun self'
          [WidgetsCopy.EventStop; WidgetsCopy.PostItemSelected node]
          (Return tt) /\
    filter (WidgetsCopy.is_cursor self') (WidgetsCopy._item_list self')
      = [node].
Proof.
  intros N K. cbv zeta. unfold WidgetsCopy.numbered in N.
  destruct (copy_getitem_in_range (WidgetsCopy._item_list self) (Z.of_nat k)
              ltac:(lia)) as (node & E & G).
  rewrite Nat2Z.id in E. exists node.
  split; [exact E|]. split; [exact (copy_numbered_id _ _ _ N E)|]. split.
  - unfold WidgetsCopy.key_enter, WidgetsCopy.action_click_item,
      WidgetsCopy.set_cursor_line, WidgetsCopy.set_cursor.
    cbn [WidgetsCopy._item_list WidgetsCopy.cursor_line]. rewrite G.
    reflexivity.
  - unfold WidgetsCopy.is_cursor, WidgetsCopy.action_click_item,
      WidgetsCopy.set_cursor_line, WidgetsCopy.set_cursor.
    cbn [WidgetsCopy._item_list WidgetsCopy.cursor].
    apply (copy_filter_row _ 0%nat k node); assumption.
Qed.

Lemma copy_click_then_enter_witness :
  let self := WidgetsCopy.add_items ["a"; "b"; "c"] WidgetsCopy.__init__ in
  exists node,
    WidgetsCopy.label node = "b" /\
    WidgetsCopy.trace
      (WidgetsCopy.key_enter (WidgetsCopy.action_click_item 1 self))
      = [WidgetsCopy.EventStop; WidgetsCopy.PostItemSelected node].
Proof.
  cbv zeta.
  destruct (copy_click_then_enter 1
              (WidgetsCopy.add_items ["a"; "b"; "c"] WidgetsCopy.__init__))
    as (node & N & _ & E & _).
  - reflexivity.
  - cbn. lia.
  - exists node. cbn in N. injection N as <-.
    split; [reflexivity|]. change (Z.of_nat 1) with 1 in E. rewrite E.
    reflexivity.
Defined.

Lemma copy_cursor_down_iter l k : forall line,
  map WidgetsCopy.id l = WidgetsCopy.positions (List.length l) ->
  0 <= line < Z.of_nat (List.length l) ->
  Nat.iter k (fun s => fst (WidgetsCopy.cursor_down s))
    (WidgetsCopy.mkItemControl l (Some line) line)
  = WidgetsCopy.mkItemControl l
      (Some ((line + Z.of_nat k) mod Z.of_nat (List.length l)))
      ((line + Z.of_nat k) mod Z.of_nat (List.length l)).
Proof.
  induction k as [|k IH]; intros line H R.
  - unfold Nat.iter. cbn [nat_rect].
    rewrite Z.add_0_r, Z.mod_small by lia. reflexivity.
  - rewrite Nat.iter_succ, (IH line H R). cbv beta.
    rewrite copy_cursor_down_step
      by (try assumption; apply Z.mod_pos_bound; lia).
    rewrite Z.add_mod_idemp_l by lia.
    replace (line + Z.of_nat k + 1) with (line + Z.of_nat (S k)) by lia.
    reflexivity.
Qed.

(** X19. In [widgets copy.py], [k] presses of [cursor_down] on a numbered
    list of [n] items move the cursor from row [r] to row [(r + k) mod n];
    in particular [n] presses bring it back to where it started. *)
Theorem copy_cursor_cycle (l : list WidgetsCopy.ItemNode) (line : Z) (k : nat) :
  map WidgetsCopy.id l = WidgetsCopy.positions (List.length l) ->
  0 <= line < Z.of_nat (List.length l) ->
  let n := Z.of_nat (List.length l) in
  let at_row m := WidgetsCopy.mkItemControl l (Some m) m in
  let press s := fst (WidgetsCopy.cursor_down s) in
  Nat.iter k press (at_row line) = at_row ((line + Z.of_nat k) mod n) /\
  Nat.iter (List.length l) press (at_row line) = at_row line.
Proof.
  intros H R n at_row press. split.
  - apply copy_cursor_down_iter; assumption.
  - unfold press, at_row. rewrite copy_cursor_down_iter by assumption.
    replace ((line + Z.of_nat (List.length l)) mod Z.of_nat (List.length l))
      with line; [reflexivity|].
    apply Z.mod_unique with (q := 1); lia.
Qed.

Lemma copy_cursor_cycle_witness :
  let l := [WidgetsCopy.mkItemNode 0 "a"; WidgetsCopy.mkItemNode 1 "b"] in
  Nat.iter 3 (fun s => fst (WidgetsCopy.cursor_down s))
    (WidgetsCopy.mkItemControl l (Some 0) 0)
  = WidgetsCopy.mkItemControl l (Some 1) 1.
Proof.
  cbv zeta.
  destruct (copy_cursor_cycle
              [WidgetsCopy.mkItemNode 0 "a"; WidgetsCopy.mkItemNode 1 "b"] 0 3)
    as (A & _).
  - reflexivity.
  - cbn. lia.
  - exact A.
Defined.
